(** * Outline extraction of [extractor/robust_extractor.py]: a shallow embedding

    The development follows the Python class [PDFOutlineExtractor]:
    string helpers and the regular expressions the class uses, the exclusion
    filter, the pattern detector, the confidence scorer, the title selector
    and the outline assembler, then the properties of each.

    Modelling conventions.
    - A Python [str] is a Rocq [string]; each [ascii] is one code point below
      256 (Latin-1), so that the copyright sign is the single character 169
      and [len] counts characters.  The character classes below are the
      restriction of Python's Unicode classes to that range.
    - Python [int] is [Z].  Python [float] (font sizes, coordinates) is the
      exact rational [Q]: the rounding of a float quotient is not modelled.
    - An exception is a value of [exn]; a function that may raise returns
      [result]. *)

From Stdlib Require Import ZArith QArith Lia Ascii String List Sorted Permutation.
From stdpp Require Import gmap strings list fin_maps sorting.

Close Scope Q_scope.
Open Scope string_scope.
Open Scope list_scope.
Open Scope Z_scope.

(** ** Characters *)

Definition code (c : ascii) : N := N_of_ascii c.

Definition in_range (lo hi : N) (c : ascii) : bool :=
  ((lo <=? code c) && (code c <=? hi))%N.

Definition is_code (n : N) (c : ascii) : bool := (code c =? n)%N.

(** [\d] *)
Definition is_digit (c : ascii) : bool := in_range 48 57 c.

(** [\s], and the characters [str.strip] and [str.split] remove. *)
Definition is_space (c : ascii) : bool :=
  in_range 9 13 c || in_range 28 32 c || is_code 133 c || is_code 160 c.

Definition char_isupper (c : ascii) : bool :=
  in_range 65 90 c || in_range 192 214 c || in_range 216 222 c.

Definition char_islower (c : ascii) : bool :=
  in_range 97 122 c || is_code 170 c || is_code 181 c || is_code 186 c
  || in_range 223 246 c || in_range 248 255 c.

(** [\w]: alphanumeric or underscore. *)
Definition is_word (c : ascii) : bool :=
  is_digit c || in_range 65 90 c || is_code 95 c || in_range 97 122 c
  || is_code 170 c || in_range 178 179 c || is_code 181 c || in_range 185 186 c
  || in_range 188 190 c || in_range 192 214 c || in_range 216 246 c
  || in_range 248 255 c.

Definition char_lower (c : ascii) : ascii :=
  if char_isupper c then ascii_of_N (code c + 32) else c.

Definition is_char (a c : ascii) : bool := is_code (code a) c.

Definition newline : ascii := ascii_of_N 10.

(** ** Strings *)

Definition chars (s : string) : list ascii := list_ascii_of_string s.
Definition str (l : list ascii) : string := string_of_list_ascii l.

(** [len(s)] *)
Definition len (s : string) : Z := Z.of_nat (String.length s).

Fixpoint lstrip_chars (l : list ascii) : list ascii :=
  match l with
  | c :: l' => if is_space c then lstrip_chars l' else l
  | [] => []
  end.

Definition strip_chars (l : list ascii) : list ascii :=
  rev (lstrip_chars (rev (lstrip_chars l))).

(** [s.strip()] *)
Definition strip (s : string) : string := str (strip_chars (chars s)).

(** [s.lower()] *)
Definition lower (s : string) : string := str (map char_lower (chars s)).

(** [s.isupper()]: no lowercase character and at least one uppercase one. *)
Definition isupper (s : string) : bool :=
  forallb (fun c => negb (char_islower c)) (chars s)
  && existsb char_isupper (chars s).

Fixpoint is_prefix (p l : list ascii) : bool :=
  match p, l with
  | [], _ => true
  | a :: p', c :: l' => if Ascii.eqb a c then is_prefix p' l' else false
  | _ :: _, [] => false
  end.

(** [s.startswith(p)] *)
Definition startswith (s p : string) : bool := is_prefix (chars p) (chars s).

(** [s.endswith(p)] *)
Definition endswith (s p : string) : bool :=
  is_prefix (rev (chars p)) (rev (chars s)).

Fixpoint contains_chars (p l : list ascii) : bool :=
  is_prefix p l ||
  match l with
  | [] => false
  | _ :: l' => contains_chars p l'
  end.

(** [p in s] *)
Definition contains (p s : string) : bool := contains_chars (chars p) (chars s).

(** [s.count(c)] for a one-character [c]. *)
Definition count_char (c : ascii) (s : string) : Z :=
  Z.of_nat (length (filter (fun a => Ascii.eqb c a = true) (chars s))).

(** [len(s.split())]: the number of maximal runs of non-space characters.
    [inword] tells whether the previous character belonged to a word. *)
Fixpoint count_words (inword : bool) (l : list ascii) : Z :=
  match l with
  | [] => 0
  | c :: l' =>
      if is_space c then count_words false l'
      else (if inword then 0 else 1) + count_words true l'
  end.

Definition word_count (s : string) : Z := count_words false (chars s).

(** [re.sub(r'\s+', ' ', s)]: every maximal run of spaces becomes one blank. *)
Fixpoint collapse_spaces (inspace : bool) (l : list ascii) : list ascii :=
  match l with
  | [] => []
  | c :: l' =>
      if is_space c
      then (if inspace then collapse_spaces true l'
            else " "%char :: collapse_spaces true l')
      else c :: collapse_spaces false l'
  end.

Definition sub_spaces (s : string) : string :=
  str (collapse_spaces false (chars s)).

(** [s[:n]] for [n >= 0]. *)
Definition slice_to (n : nat) (s : string) : string := str (take n (chars s)).

(** ** Regular expressions

    The fragment of Python's [re] syntax the extractor uses, with the
    backtracking semantics of [re]: alternatives are tried left to right,
    repetitions are greedy, and a capturing group inside a repetition keeps
    the text of its last iteration. *)

Inductive regex : Type :=
| Eps                          (* the empty pattern *)
| Cls (p : ascii -> bool)      (* one character of a class *)
| Cat (r1 r2 : regex)          (* r1 r2 *)
| Or (r1 r2 : regex)           (* r1|r2 *)
| Star (r : regex)             (* r*, greedy *)
| Grp (n : nat) (r : regex)    (* capturing group number n *)
| Bol                          (* ^ *)
| Eol.                         (* $ *)

Definition Plus (r : regex) : regex := Cat r (Star r).     (* r+ *)
Definition Opt (r : regex) : regex := Or r Eps.            (* r? *)
Definition Chr (a : ascii) : regex := Cls (is_char a).
Definition Dot : regex := Cls (fun c => negb (is_char newline c)).

Fixpoint Lit_chars (l : list ascii) : regex :=
  match l with
  | [] => Eps
  | [a] => Chr a
  | a :: l' => Cat (Chr a) (Lit_chars l')
  end.

(** A literal word. *)
Definition Lit (s : string) : regex := Lit_chars (chars s).

(** [r1|r2|...|rn] *)
Fixpoint Alts (rs : list regex) : regex :=
  match rs with
  | [] => Eps
  | [r] => r
  | r :: rs' => Or r (Alts rs')
  end.

(** [r1 r2 ... rn] *)
Fixpoint Cats (rs : list regex) : regex :=
  match rs with
  | [] => Eps
  | [r] => r
  | r :: rs' => Cat r (Cats rs')
  end.

(** The groups of a match: the most recent binding of a number comes first. *)
Definition groups : Type := list (nat * list ascii).

Fixpoint group_chars (n : nat) (g : groups) : option (list ascii) :=
  match g with
  | [] => None
  | (m, l) :: g' => if Nat.eqb n m then Some l else group_chars n g'
  end.

(** [m.group(n)], [None] when the group took no part in the match. *)
Definition group (n : nat) (g : groups) : option string :=
  str <$> group_chars n g.

(** [rmatch r i s g k] matches [r] at index [i], where [s] is the text from
    [i] on and [g] the groups bound so far, and hands the index, the rest of
    the text and the groups to the continuation [k]; a [None] from [k] makes
    the matcher backtrack.  A repetition runs at most [length s] times, which
    is enough as each iteration has to consume a character. *)
Fixpoint rmatch {A : Type} (r : regex) (i : nat) (s : list ascii) (g : groups)
    (k : nat -> list ascii -> groups -> option A) {struct r} : option A :=
  match r with
  | Eps => k i s g
  | Cls p =>
      match s with
      | c :: s' => if p c then k (S i) s' g else None
      | [] => None
      end
  | Cat r1 r2 => rmatch r1 i s g (fun i' s' g' => rmatch r2 i' s' g' k)
  | Or r1 r2 =>
      match rmatch r1 i s g k with
      | Some a => Some a
      | None => rmatch r2 i s g k
      end
  | Star r1 =>
      (fix star (fuel : nat) (i : nat) (s : list ascii) (g : groups)
           {struct fuel} : option A :=
         match fuel with
         | O => k i s g
         | S fuel' =>
             match rmatch r1 i s g
                     (fun i' s' g' =>
                        if (i <? i')%nat then star fuel' i' s' g' else None)
             with
             | Some a => Some a
             | None => k i s g
             end
         end) (length s) i s g
  | Grp n r1 =>
      rmatch r1 i s g
        (fun i' s' g' => k i' s' ((n, take (i' - i) s) :: g'))
  | Bol => if (i =? 0)%nat then k i s g else None
  | Eol =>
      match s with
      | [] => k i s g
      | [c] => if is_char newline c then k i s g else None
      | _ => None
      end
  end.

(** [re.match(r, s)]: a match starting at index 0; the result is the groups. *)
Definition re_match (r : regex) (s : string) : option groups :=
  rmatch r 0%nat (chars s) [] (fun _ _ g => Some g).

(** [re.search(r, s)]: the first index from which [r] matches. *)
Fixpoint search_from (r : regex) (i : nat) (s : list ascii) : option groups :=
  match rmatch r i s [] (fun _ _ g => Some g) with
  | Some g => Some g
  | None =>
      match s with
      | [] => None
      | _ :: s' => search_from r (S i) s'
      end
  end.

Definition re_search (r : regex) (s : string) : option groups :=
  search_from r 0%nat (chars s).

Definition matches (o : option groups) : bool :=
  match o with Some _ => true | None => false end.

(** Character classes of the patterns. *)
Definition digit : regex := Cls is_digit.                          (* \d *)
Definition space : regex := Cls is_space.                          (* \s *)
Definition word : regex := Cls is_word.                            (* \w *)
Definition upper_AZ : regex := Cls (in_range 65 90).               (* [A-Z] *)

(** [r{1,2}], [r{2,4}] and [r{4}], greedy. *)
Definition Rep_1_2 (r : regex) : regex := Cat r (Opt r).
Definition Rep_2_4 (r : regex) : regex := Cats [r; r; Opt (Cat r (Opt r))].
Definition Rep_4 (r : regex) : regex := Cats [r; r; r; r].

(** ** The exclusion filter *)

(** [r'copyright|©|all rights reserved|confidential|proprietary'] *)
Definition re_legal : regex :=
  Alts [Lit "copyright"; Chr (ascii_of_N 169); Lit "all rights reserved";
        Lit "confidential"; Lit "proprietary"].

(** [r'http[s]?://|www\.|@[\w\.-]+\.\w+|\.com|\.org|\.net'] *)
Definition re_url : regex :=
  Alts [Cats [Lit "http"; Opt (Chr "s"); Lit "://"];
        Lit "www.";
        Cats [Chr "@";
              Plus (Cls (fun c => is_word c || is_char "." c || is_char "-" c));
              Chr "."; Plus word];
        Lit ".com"; Lit ".org"; Lit ".net"].

(** [r'^\d{1,2}[\/\-]\d{1,2}[\/\-]\d{2,4}$'] *)
Definition re_numeric_date : regex :=
  let sep := Cls (fun c => is_char "/" c || is_char "-" c) in
  Cats [Bol; Rep_1_2 digit; sep; Rep_1_2 digit; sep; Rep_2_4 digit; Eol].

Definition exclusion_patterns : list regex :=
  [re_legal; re_url; re_numeric_date].

(** [is_excluded_content(text, page)] *)
Definition is_excluded_content (text : string) (page : Z) : bool :=
  let text_clean := strip text in
  let text_lower := lower text_clean in
  if (len text_clean <? 3) || (150 <? len text_clean) then true
  else existsb (fun pattern => matches (re_match pattern text_lower))
         exclusion_patterns.

(** ** The pattern detector *)

(** [r'^(\d+)(\.\d+)*\.?\s+(.+)$'] *)
Definition re_numbered : regex :=
  Cats [Bol; Grp 1 (Plus digit); Star (Grp 2 (Cat (Chr ".") (Plus digit)));
        Opt (Chr "."); Plus space; Grp 3 (Plus Dot); Eol].

(** [r'^\d+$'] *)
Definition re_only_digits : regex := Cats [Bol; Plus digit; Eol].

(** [r'^([A-Z])(\.\d+)*\.?\s+(.+)$'] *)
Definition re_lettered : regex :=
  Cats [Bol; Grp 1 upper_AZ; Star (Grp 2 (Cat (Chr ".") (Plus digit)));
        Opt (Chr "."); Plus space; Grp 3 (Plus Dot); Eol].

(** [r'^([IVX]+)\.?\s+(.+)$'] *)
Definition re_roman : regex :=
  Cats [Bol;
        Grp 1 (Plus (Cls (fun c => is_char "I" c || is_char "V" c
                                   || is_char "X" c)));
        Opt (Chr "."); Plus space; Grp 2 (Plus Dot); Eol].

(** [r'\d+:\d+'] *)
Definition re_ratio : regex := Cats [Plus digit; Chr ":"; Plus digit].

(** [r'^[A-Z\s]+\d+[A-Z\s]*$'] *)
Definition re_caps_number : regex :=
  let caps := Cls (fun c => in_range 65 90 c || is_space c) in
  Cats [Bol; Plus caps; Plus digit; Star caps; Eol].

(** The text of a group that took part in the match; the groups read below
    are not optional in their patterns. *)
Definition group_text (n : nat) (g : groups) : string :=
  default "" (group n g).

(** Pattern 1, numbered sections: the level, when the rule fires. *)
Definition numbered_rule (text_stripped : string) : option Z :=
  match re_match re_numbered text_stripped with
  | Some numbered_match =>
      let dots := group 2 numbered_match in
      let content := strip (group_text 3 numbered_match) in
      if (5 <? len content) && negb (matches (re_match re_only_digits content))
      then Some (match dots with
                 | None => 1
                 | Some d =>
                     if (len d =? 0) then 1
                     else Z.min (count_char "." d + 1) 3
                 end)
      else None
  | None => None
  end.

(** Pattern 2, letter-based sections. *)
Definition lettered_rule (text_stripped : string) : bool :=
  match re_match re_lettered text_stripped with
  | Some letter_match => 5 <? len (strip (group_text 3 letter_match))
  | None => false
  end.

(** Pattern 3, roman numerals. *)
Definition roman_rule (text_stripped : string) : bool :=
  match re_match re_roman text_stripped with
  | Some roman_match => 5 <? len (strip (group_text 2 roman_match))
  | None => false
  end.

(** Pattern 4, colon endings. *)
Definition colon_rule (text_stripped : string) : bool :=
  endswith text_stripped ":"
  && (8 <? len text_stripped)
  && negb (matches (re_search re_ratio text_stripped))
  && (count_char ":" text_stripped =? 1).

(** Pattern 5, selective all caps. *)
Definition allcaps_rule (text_stripped : string) : bool :=
  isupper text_stripped
  && (10 <=? len text_stripped) && (len text_stripped <=? 60)
  && negb (matches (re_match re_caps_number text_stripped)).

(** [detect_heading_patterns(text)], returning [(is_heading, level,
    confidence)]: the rules are tried in order and the first that fires
    returns. *)
Definition detect_heading_patterns (text : string) : bool * Z * Z :=
  let text_stripped := strip text in
  match numbered_rule text_stripped with
  | Some level => (true, level, 90)
  | None =>
      if lettered_rule text_stripped then (true, 1, 80)
      else if roman_rule text_stripped then (true, 1, 70)
      else if colon_rule text_stripped then (true, 2, 60)
      else if allcaps_rule text_stripped then (true, 1, 50)
      else (false, 0, 0)
  end.

(** ** Exceptions *)

Inductive exn : Type :=
| ZeroDivisionError
| KeyError (key : string)
| IndexError
| FileDataError.       (* [fitz.open] could not open the document *)

Inductive result (A : Type) : Type :=
| Ok (a : A)
| Raise (e : exn).

Arguments Ok {A} a.
Arguments Raise {A} e.

#[global] Instance result_ret : MRet result := fun A a => Ok a.
#[global] Instance result_bind : MBind result := fun A B f m =>
  match m with
  | Ok a => f a
  | Raise e => Raise e
  end.

(** [d[key]] on a dictionary entry that may be absent. *)
Definition getitem {A : Type} (key : string) (o : option A) : result A :=
  match o with
  | Some a => Ok a
  | None => Raise (KeyError key)
  end.

(** [l[i]] on a list. *)
Definition index {A : Type} (l : list A) (i : nat) : result A :=
  match l !! i with
  | Some a => Ok a
  | None => Raise IndexError
  end.

(** [for x in l: ...] with a body that may raise, as a map. *)
Fixpoint for_each {A B : Type} (f : A -> result (list B)) (l : list A)
    : result (list B) :=
  match l with
  | [] => Ok []
  | x :: l' => ys ← f x; zs ← for_each f l'; Ok (ys ++ zs)
  end.

(** ** Numbers *)

Definition Qleb (x y : Q) : bool := Qle_bool x y.
Definition Qltb (x y : Q) : bool := negb (Qle_bool y x).

(** ** The data model *)

(** What [page.get_text("dict")] gives: spans in lines in blocks.  A key
    that the code reads with [d[key]] is optional here, and reading it when
    absent raises [KeyError]. *)
Record Span : Type := {
  span_text : option string;
  span_size : option Q;
  span_flags : option Z;
  span_font : option string;
  span_bbox : option (list Q)
}.

Record Line : Type := {
  line_spans : option (list Span);
  line_bbox : option (list Q)
}.

Record Block : Type := {
  block_lines : option (list Line)      (* image blocks have no "lines" *)
}.

(** The blocks of a page, [page.get_text("dict")["blocks"]]. *)
Definition Page : Type := list Block.

(** The opened document, [self.doc]. *)
Definition Doc : Type := list Page.

(** One entry of [text_blocks]. *)
Record TextBlock : Type := {
  text : string;
  font_size : Q;
  font_flags : Z;
  font_name : string;
  x_position : Q;
  y_position : Q;
  page : Z;
  is_bold : bool;
  bbox : list Q;
  line_height : Q
}.

Inductive Level : Type := H1 | H2 | H3.

(** One entry of the outline. *)
Record Heading : Type := {
  h_text : string;
  h_page : Z;
  h_level : option Level;
  h_confidence : Z;
  h_font_size : Q
}.

Record Metadata : Type := { page_count : Z }.

(** The dictionary [extract_outline] returns; the error dictionary of
    [extract_pdf_outline] has no "metadata" entry. *)
Record OutlineResult : Type := {
  title : string;
  outline : list Heading;
  metadata : option Metadata
}.

(** ** Text blocks *)

(** The spans of a line with a non-blank text, and the line's text. *)
Fixpoint scan_spans (spans : list Span) (line_text : string)
    (line_spans : list Span) : result (string * list Span) :=
  match spans with
  | [] => Ok (line_text, line_spans)
  | span :: rest =>
      t ← getitem "text" (span_text span);
      let text := strip t in
      if negb (len text =? 0)
      then scan_spans rest (line_text +:+ text +:+ " ") (line_spans ++ [span])
      else scan_spans rest line_text line_spans
  end.

(** [max(line_spans, key=lambda s: len(s["text"]))]: the first span with the
    longest text; [best] is the maximum so far. *)
Fixpoint max_by_len (spans : list Span) (best : Span * Z) : result Span :=
  match spans with
  | [] => Ok (fst best)
  | s :: rest =>
      t ← getitem "text" (span_text s);
      if snd best <? len t then max_by_len rest (s, len t)
      else max_by_len rest best
  end.

Definition dominant (line_spans : list Span) : result Span :=
  match line_spans with
  | [] => Raise IndexError
  | s :: rest => t ← getitem "text" (span_text s); max_by_len rest (s, len t)
  end.

(** The body of the loop over the lines of a block. *)
Definition line_blocks (page_num : Z) (line : Line) : result (list TextBlock) :=
  spans ← getitem "spans" (line_spans line);
  '(line_text, line_spans) ← scan_spans spans "" [];
  let line_text := strip line_text in
  if (len line_text =? 0) || (len line_text <? 2) then Ok []
  else
    match line_spans with
    | [] => Ok []
    | _ :: _ =>
        dominant_span ← dominant line_spans;
        size ← getitem "size" (span_size dominant_span);
        flags ← getitem "flags" (span_flags dominant_span);
        sbbox ← getitem "bbox" (span_bbox dominant_span);
        x ← index sbbox 0;
        y ← index sbbox 1;
        lbbox ← getitem "bbox" (line_bbox line);
        bottom ← index lbbox 3;
        top ← index lbbox 1;
        Ok [ {| text := line_text;
                font_size := size;
                font_flags := flags;
                font_name := default "" (span_font dominant_span);
                x_position := x;
                y_position := y;
                page := page_num + 1;
                is_bold := negb (Z.land flags (2 ^ 4) =? 0);
                bbox := sbbox;
                line_height := (bottom - top)%Q |} ]
    end.

Definition block_blocks (page_num : Z) (block : Block)
    : result (list TextBlock) :=
  match block_lines block with
  | None => Ok []
  | Some lines => for_each (line_blocks page_num) lines
  end.

(** The loop over the pages, [page_num] being the index of the first. *)
Fixpoint pages_blocks (page_num : Z) (pages : list Page)
    : result (list TextBlock) :=
  match pages with
  | [] => Ok []
  | p :: rest =>
      bs ← for_each (block_blocks page_num) p;
      cs ← pages_blocks (page_num + 1) rest;
      Ok (bs ++ cs)
  end.

(** [extract_text_blocks()] *)
Definition extract_text_blocks (doc : Doc) : result (list TextBlock) :=
  pages_blocks 0 doc.

(** ** Font analysis *)

(** [Counter(l).most_common(1)[0][0]]: the first value of [l] among those
    that occur most often. *)
Definition occurrences_of {A : Type} (eqb : A -> A -> bool) (x : A)
    (l : list A) : nat :=
  length (List.filter (eqb x) l).

Fixpoint first_most_common {A : Type} (eqb : A -> A -> bool) (all l : list A)
    (best : A) : A :=
  match l with
  | [] => best
  | x :: l' =>
      if (occurrences_of eqb best all <? occurrences_of eqb x all)%nat
      then first_most_common eqb all l' x
      else first_most_common eqb all l' best
  end.

Definition most_common {A : Type} (eqb : A -> A -> bool) (l : list A)
    : result A :=
  match l with
  | [] => Raise IndexError
  | x :: l' => Ok (first_most_common eqb l l' x)
  end.

(** The entries of the font analysis that the later steps read.  The other
    entries of the dictionary (percentiles, size distribution, number of
    sizes, smallest and largest size) are computed from a non-empty list
    without raising and are read nowhere. *)
Record FontAnalysis : Type := {
  body_font_size : Q;
  body_font_name : string
}.

(** [analyze_fonts(text_blocks)] *)
Definition analyze_fonts (text_blocks : list TextBlock) : result FontAnalysis :=
  let font_sizes := map font_size text_blocks in
  let font_names := map font_name text_blocks in
  size ← most_common Qeq_bool font_sizes;
  name ← most_common String.eqb font_names;
  Ok {| body_font_size := size; body_font_name := name |}.

(** ** The confidence scorer *)

Definition month_names : list string :=
  ["jan"; "feb"; "mar"; "apr"; "may"; "jun"; "jul"; "aug"; "sep"; "oct";
   "nov"; "dec"; "january"; "february"; "march"; "april"; "may"; "june";
   "july"; "august"; "september"; "october"; "november"; "december"].

(** [r'\d{1,2}\s+(jan|...|december)\s+\d{4}'] *)
Definition re_month_date : regex :=
  Cats [Rep_1_2 digit; Plus space; Grp 1 (Alts (map Lit month_names));
        Plus space; Rep_4 digit].

(** [r'^\d+\.\s+\w+.*\s+(who|that|which|are|have|will|can|may|should)'] *)
Definition re_list_item : regex :=
  Cats [Bol; Plus digit; Chr "."; Plus space; Plus word; Star Dot; Plus space;
        Grp 1 (Alts (map Lit ["who"; "that"; "which"; "are"; "have"; "will";
                              "can"; "may"; "should"]))].

(** [r'^(chapter|section|part|appendix)\s+'] *)
Definition re_chapter : regex :=
  Cats [Bol; Grp 1 (Alts (map Lit ["chapter"; "section"; "part"; "appendix"]));
        Plus space].

Definition penalty_words : list string :=
  ["copyright"; str [ascii_of_N 169]; "page"; "version"].

Definition structure_words : list string :=
  ["table of contents"; "acknowledgements"; "references"; "introduction";
   "conclusion"; "overview"].

(** [any(word in s for word in words)] *)
Definition any_in (words : list string) (s : string) : bool :=
  existsb (fun word => contains word s) words.

(** [level_map.get(suggested_level, "H3")] *)
Definition level_map (suggested_level : Z) : Level :=
  if suggested_level =? 1 then H1
  else if suggested_level =? 2 then H2
  else H3.

(** The number of blocks of the document with the same normalised text. *)
Definition occurrences (all_text_blocks : list TextBlock) (t : string) : Z :=
  Z.of_nat (length (List.filter
    (fun b => String.eqb (strip (lower (text b))) (strip (lower t)))
    all_text_blocks)).

(** Step 1: the pattern, from confidence 0 and level 3. *)
Definition score_pattern (t : string) : Z * Z :=
  let '(has_pattern, pattern_level, pattern_confidence) :=
    detect_heading_patterns t in
  if has_pattern then (pattern_confidence, pattern_level) else (0, 3).

(** Step 2: the font size against the body size. *)
Definition score_size (size_ratio : Q) (st : Z * Z) : Z * Z :=
  let '(total_confidence, suggested_level) := st in
  if Qleb (3 # 2) size_ratio then
    (total_confidence + 60,
     if Qleb 2 size_ratio then Z.min suggested_level 1
     else if Qleb (9 # 5) size_ratio then Z.min suggested_level 2
     else suggested_level)
  else if Qleb (6 # 5) size_ratio then
    (total_confidence + 30, Z.min suggested_level 3)
  else st.

(** Step 3: bold text. *)
Definition score_bold (bold : bool) (st : Z * Z) : Z * Z :=
  let '(total_confidence, suggested_level) := st in
  if bold then (total_confidence + 25, Z.max 1 (suggested_level - 1)) else st.

(** Steps 4 and 5: the font family and the left margin. *)
Definition score_family (block : TextBlock) (font_analysis : FontAnalysis)
    : Z :=
  if negb (String.eqb (font_name block) (body_font_name font_analysis))
  then 15 else 0.

Definition score_position (block : TextBlock) : Z :=
  if Qltb (x_position block) 100 then 10 else 0.

(** Step 6: the content of the text. *)
Definition score_content (all_text_blocks : list TextBlock) (t : string)
    (has_pattern : bool) : Z :=
  (if any_in penalty_words (lower t) then -40 else 0)
  + (if matches (re_search re_month_date (lower t)) then -80 else 0)
  + (if (12 <? word_count t) && negb has_pattern then -30 else 0)
  + (if matches (re_match re_list_item (lower t)) then -50 else 0)
  + (if matches (re_search re_chapter (lower t)) then 30 else 0)
  + (if any_in structure_words (lower t)
     then (if occurrences all_text_blocks t <=? 2 then 20 else 0)
     else 0).

(** [calculate_heading_likelihood(block, font_analysis)], with
    [self.all_text_blocks] as a parameter. *)
Definition calculate_heading_likelihood (all_text_blocks : list TextBlock)
    (block : TextBlock) (font_analysis : FontAnalysis)
    : result (bool * option Level * Z) :=
  if is_excluded_content (text block) (page block) then Ok (false, None, 0)
  else
    let has_pattern := fst (fst (detect_heading_patterns (text block))) in
    let st := score_pattern (text block) in
    let body_size := body_font_size font_analysis in
    if Qeq_bool body_size 0 then Raise ZeroDivisionError
    else
      let size_ratio := (font_size block / body_size)%Q in
      let st := score_size size_ratio st in
      let '(total_confidence, suggested_level) := score_bold (is_bold block) st in
      let total_confidence :=
        total_confidence
        + score_family block font_analysis
        + score_position block
        + score_content all_text_blocks (text block) has_pattern in
      let is_heading := 80 <=? total_confidence in
      Ok (is_heading, Some (level_map suggested_level), total_confidence).

(** ** Sorting

    [list.sort(key=...)] is a stable sort: elements with equal keys keep
    their order.  [sort_by ltb key l] inserts each element before the first
    one that does not come strictly before it. *)

Section Sort.
Context {A K : Type} (ltb : K -> K -> bool) (key : A -> K).

Fixpoint insert_by (x : A) (l : list A) : list A :=
  match l with
  | [] => [x]
  | y :: l' =>
      if ltb (key y) (key x) then y :: insert_by x l' else x :: y :: l'
  end.

Fixpoint sort_by (l : list A) : list A :=
  match l with
  | [] => []
  | x :: l' => insert_by x (sort_by l')
  end.
End Sort.

(** [<] on the tuples [(-font_size, y_position)]. *)
Definition QQ_ltb (a b : Q * Q) : bool :=
  if negb (Qeq_bool (fst a) (fst b)) then Qltb (fst a) (fst b)
  else Qltb (snd a) (snd b).

(** [<] on the tuples [(page, y_pos)]. *)
Definition ZQ_ltb (a b : Z * Q) : bool :=
  if negb (fst a =? fst b) then fst a <? fst b
  else Qltb (snd a) (snd b).

(** ** The title selector *)

(** [r'^\d+\.'], [r'^version\s+'] and [r'^\d'] *)
Definition re_number_dot : regex := Cats [Bol; Plus digit; Chr "."].
Definition re_version : regex := Cats [Bol; Lit "version"; Plus space].
Definition re_leading_digit : regex := Cats [Bol; digit].

Definition generic_titles : list string :=
  ["overview"; "introduction"; "document"; "foundation level"].

Definition is_title_candidate (block : TextBlock) : bool :=
  let t := strip (text block) in
  (5 <? len t)
  && negb (is_excluded_content t 1)
  && negb (matches (re_match re_number_dot t))
  && negb (matches (re_match re_version (lower t)))
  && Qltb (y_position block) 300.

(** The clean-up of a title: blanks collapsed, at most 100 characters. *)
Definition clean_title (t : string) : string :=
  let t := sub_spaces t in
  if 100 <? len t then slice_to 100 t +:+ "..." else t.

(** The fallback scan: the first substantial text. *)
Fixpoint first_substantial (blocks : list TextBlock) : string :=
  match blocks with
  | [] => "Document"
  | block :: rest =>
      let t := strip (text block) in
      if (10 <? len t)
         && negb (startswith (lower t) "copyright")
         && negb (matches (re_match re_leading_digit t))
      then t
      else first_substantial rest
  end.

(** The loop over the top candidates: the first meaningful title. *)
Fixpoint first_meaningful (candidates : list TextBlock) : option string :=
  match candidates with
  | [] => None
  | candidate :: rest =>
      let t := strip (text candidate) in
      if (2 <=? word_count t)
         && negb (existsb (String.eqb (lower t)) generic_titles)
      then Some (clean_title t)
      else first_meaningful rest
  end.

(** [extract_title(text_blocks)] *)
Definition extract_title (text_blocks : list TextBlock) : string :=
  let first_page_blocks := List.filter (fun b => page b =? 1) text_blocks in
  match first_page_blocks with
  | [] => "Untitled Document"
  | _ :: _ =>
      let title_candidates := List.filter is_title_candidate first_page_blocks in
      match title_candidates with
      | [] => first_substantial first_page_blocks
      | _ :: _ =>
          let title_candidates :=
            sort_by QQ_ltb (fun x => ((- font_size x)%Q, y_position x))
              title_candidates in
          match first_meaningful (take 3 title_candidates) with
          | Some t => t
          | None =>
              match title_candidates with
              | best :: _ => clean_title (strip (text best))
              | [] => ""
              end
          end
      end
  end.

(** ** The outline assembler *)

(** The key of a block in [seen_texts] and [heading_positions]. *)
Definition block_key (block : TextBlock) : string * Z :=
  (lower (strip (text block)), page block).

(** The key under which [sort_key] looks a heading up. *)
Definition heading_key (heading : Heading) : string * Z :=
  (lower (h_text heading), h_page heading).

(** The loop that collects the headings. *)
Fixpoint collect_headings (all_text_blocks : list TextBlock)
    (font_analysis : FontAnalysis) (blocks : list TextBlock)
    (headings : list Heading) (seen_texts : gset (string * Z))
    : result (list Heading) :=
  match blocks with
  | [] => Ok headings
  | block :: rest =>
      let text_clean := strip (text block) in
      if (len text_clean =? 0) || bool_decide (block_key block ∈ seen_texts)
      then collect_headings all_text_blocks font_analysis rest headings
             seen_texts
      else
        '(is_heading, level, confidence) ←
          calculate_heading_likelihood all_text_blocks block font_analysis;
        if is_heading : bool then
          let heading := {| h_text := text_clean;
                            h_page := page block;
                            h_level := level;
                            h_confidence := confidence;
                            h_font_size := font_size block |} in
          collect_headings all_text_blocks font_analysis rest
            (headings ++ [heading]) ({[block_key block]} ∪ seen_texts)
        else
          collect_headings all_text_blocks font_analysis rest headings
            seen_texts
  end.

(** The loop that records the position of the first block of each key. *)
Fixpoint record_positions (blocks : list TextBlock)
    (heading_positions : gmap (string * Z) Q) : gmap (string * Z) Q :=
  match blocks with
  | [] => heading_positions
  | block :: rest =>
      let key := block_key block in
      match heading_positions !! key with
      | None =>
          record_positions rest (<[key := y_position block]> heading_positions)
      | Some _ => record_positions rest heading_positions
      end
  end.

Definition sort_key (heading_positions : gmap (string * Z) Q)
    (heading : Heading) : Z * Q :=
  let y_pos := default 0%Q (heading_positions !! heading_key heading) in
  (h_page heading, y_pos).

(** [extract_outline()], on the opened document. *)
Definition extract_outline (doc : Doc) : result OutlineResult :=
  text_blocks ← extract_text_blocks doc;
  let true_page_count := {| page_count := Z.of_nat (length doc) |} in
  match text_blocks with
  | [] =>
      Ok {| title := "Empty Document"; outline := [];
            metadata := Some true_page_count |}
  | _ :: _ =>
      font_analysis ← analyze_fonts text_blocks;
      let title := extract_title text_blocks in
      headings ← collect_headings text_blocks font_analysis text_blocks [] ∅;
      let heading_positions := record_positions text_blocks ∅ in
      let headings := sort_by ZQ_ltb (sort_key heading_positions) headings in
      Ok {| title := title; outline := headings;
            metadata := Some true_page_count |}
  end.

(** [extract_pdf_outline(pdf_path)]: [opened] is what [fitz.open(pdf_path)]
    gives, a document or an exception; [except Exception] turns every
    exception into the error dictionary. *)
Definition error_result : OutlineResult :=
  {| title := "Error"; outline := []; metadata := None |}.

Definition extract_pdf_outline (opened : result Doc) : OutlineResult :=
  match (doc ← opened; extract_outline doc) with
  | Ok outline => outline
  | Raise e => error_result
  end.

(** * Properties *)

(** ** Sample documents *)

Definition sample_span (t : string) (size : Q) (flags : Z) (x y : Q) : Span :=
  {| span_text := Some t; span_size := Some size; span_flags := Some flags;
     span_font := Some "Helvetica";
     span_bbox := Some [x; y; (x + 200)%Q; (y + size)%Q] |}.

Definition sample_line (s : Span) : Line :=
  {| line_spans := Some [s]; line_bbox := span_bbox s |}.

Definition sample_block (spans : list Span) : Block :=
  {| block_lines := Some (map sample_line spans) |}.

(** Two pages of text: a title, body lines and numbered headings; on the
    second page "Results:" comes first in body size and later as a large bold
    line, and "2. Second Chapter" comes twice. *)
Definition sample_doc : Doc :=
  [ [ sample_block
        [ sample_span "Annual Engineering Report" 24 16 72 80;
          sample_span "plain body text of the report" 10 0 72 200;
          sample_span "1.2 System Overview" 14 16 72 400;
          sample_span "another line of body text" 10 0 72 300 ] ];
    [ sample_block
        [ sample_span "Results:" 10 0 72 40;
          sample_span "2. Second Chapter" 14 16 72 60;
          sample_span "the last line of body text" 10 0 72 30;
          sample_span "Results:" 16 16 72 500;
          sample_span "2. Second Chapter" 14 16 72 700 ] ] ].

(** Two pages without any text. *)
Definition blank_doc : Doc := [ []; [] ].

(** A single line of text set in a font of size 0. *)
Definition zero_size_doc : Doc :=
  [ [ sample_block [ sample_span "Hello World" 0 0 72 80 ] ] ].

(** A span that lacks its "size" entry. *)
Definition malformed_doc : Doc :=
  [ [ sample_block
        [ {| span_text := Some "Hello World"; span_size := None;
             span_flags := Some 0; span_font := None;
             span_bbox := Some [72; 80; 272; 92]%Q |} ] ] ].

(** ** The empty document *)

(** C5: when no text block is extracted, [extract_outline] returns the title
    "Empty Document", an empty outline, and the number of pages of the
    document as page count. *)
Theorem empty_document (doc : Doc) :
  extract_text_blocks doc = Ok [] ->
  extract_outline doc =
    Ok {| title := "Empty Document"; outline := [];
          metadata := Some {| page_count := Z.of_nat (length doc) |} |}.
Proof.
  intros Hblocks. unfold extract_outline. rewrite Hblocks. reflexivity.
Qed.

Lemma empty_document_witness :
  extract_text_blocks blank_doc = Ok [] /\
  extract_outline blank_doc =
    Ok {| title := "Empty Document"; outline := [];
          metadata := Some {| page_count := 2 |} |}.
Proof.
  split; [reflexivity | apply (empty_document blank_doc); reflexivity].
Defined.

(** ** The document-level boundary *)

Lemma zero_size_raises : extract_outline zero_size_doc = Raise ZeroDivisionError.
Proof. vm_compute. reflexivity. Qed.

Lemma malformed_raises : extract_outline malformed_doc = Raise (KeyError "size").
Proof. vm_compute. reflexivity. Qed.

(** C4: whatever exception opening the document or extracting its outline
    raises, [extract_pdf_outline] returns the dictionary with title "Error"
    and an empty outline; being a total function it raises nothing itself. *)
Theorem extract_pdf_outline_catches (opened : result Doc) (e : exn) :
  (doc ← opened; extract_outline doc) = Raise e ->
  extract_pdf_outline opened = error_result
  /\ title (extract_pdf_outline opened) = "Error"
  /\ outline (extract_pdf_outline opened) = [].
Proof.
  intros Hraise. unfold extract_pdf_outline. rewrite Hraise. auto.
Qed.

Lemma extract_pdf_outline_catches_witness :
  (doc ← Ok zero_size_doc; extract_outline doc) = Raise ZeroDivisionError /\
  extract_pdf_outline (Ok zero_size_doc) = error_result.
Proof.
  split; [vm_compute; reflexivity |].
  apply (extract_pdf_outline_catches (Ok zero_size_doc) ZeroDivisionError).
  vm_compute; reflexivity.
Defined.

(** ** The title of a document without text on its first page *)

Lemma filter_none {A : Type} (f : A -> bool) (l : list A) :
  (forall x, x ∈ l -> f x = false) -> List.filter f l = [].
Proof.
  induction l as [| x l IH]; intros Hall; [reflexivity |].
  simpl. rewrite (Hall x) by apply list_elem_of_here.
  apply IH. intros y Hy. apply Hall. now apply list_elem_of_further.
Qed.

(** C10: on a non-empty list of blocks none of which lies on page 1,
    [extract_title] returns "Untitled Document", a placeholder different
    from "Empty Document" and from "Document". *)
Theorem untitled_without_first_page (text_blocks : list TextBlock) :
  text_blocks <> [] ->
  (forall b, b ∈ text_blocks -> page b <> 1) ->
  extract_title text_blocks = "Untitled Document"
  /\ "Untitled Document" <> "Empty Document"
  /\ "Untitled Document" <> "Document".
Proof.
  intros _ Hpages. split; [| split; discriminate].
  unfold extract_title. rewrite filter_none; [reflexivity |].
  intros b Hb. apply Z.eqb_neq. now apply Hpages.
Qed.

Definition second_page_block : TextBlock :=
  {| text := "2. Second Chapter"; font_size := 14; font_flags := 16;
     font_name := "Helvetica"; x_position := 72; y_position := 60;
     page := 2; is_bold := true; bbox := [72; 60; 272; 74]%Q;
     line_height := 14 |}.

Lemma untitled_without_first_page_witness :
  extract_title [second_page_block] = "Untitled Document".
Proof.
  apply (untitled_without_first_page [second_page_block]).
  - discriminate.
  - intros b Hb. apply list_elem_of_singleton in Hb. subst b.
    simpl. lia.
Defined.

(** The placeholder "Document" is the one of a first page without any
    substantial text. *)
Lemma first_substantial_none (blocks : list TextBlock) :
  (forall b, b ∈ blocks -> len (strip (text b)) <= 10) ->
  first_substantial blocks = "Document".
Proof.
  induction blocks as [| b blocks IH]; intros Hall; [reflexivity |].
  simpl.
  assert (Hb : (10 <? len (strip (text b))) = false).
  { apply Z.ltb_ge. apply Hall. apply list_elem_of_here. }
  rewrite Hb. simpl. apply IH.
  intros b' Hb'. apply Hall. now apply list_elem_of_further.
Qed.

(** ** The priority of the pattern rules *)

(** The confidence of a pattern is that of one rule. *)
Lemma pattern_confidence_values (t : string) :
  snd (detect_heading_patterns t) ∈ [0; 50; 60; 70; 80; 90].
Proof.
  unfold detect_heading_patterns.
  destruct (numbered_rule (strip t)); [simpl; set_solver |].
  destruct (lettered_rule (strip t)); [simpl; set_solver |].
  destruct (roman_rule (strip t)); [simpl; set_solver |].
  destruct (colon_rule (strip t)); [simpl; set_solver |].
  destruct (allcaps_rule (strip t)); simpl; set_solver.
Qed.

(** C8: on a text that satisfies the numbered-section rule and the all-caps
    rule, [detect_heading_patterns] returns the result of the numbered
    rule, with confidence 90, neither 50 nor the sum of both. *)
Theorem numbered_before_allcaps (t : string) (level : Z) :
  numbered_rule (strip t) = Some level ->
  allcaps_rule (strip t) = true ->
  detect_heading_patterns t = (true, level, 90)
  /\ snd (detect_heading_patterns t) <> 50
  /\ snd (detect_heading_patterns t) <> 90 + 50.
Proof.
  intros Hnumbered _. unfold detect_heading_patterns.
  rewrite Hnumbered. simpl. repeat split; lia.
Qed.

Lemma numbered_before_allcaps_witness :
  detect_heading_patterns "1. INTRODUCTION TO X" = (true, 1, 90).
Proof.
  apply (numbered_before_allcaps "1. INTRODUCTION TO X" 1).
  - vm_compute. reflexivity.
  - vm_compute. reflexivity.
Defined.

(** ** The level of a numbered section *)

(** C1: the level of a numbered section with two dots in its number.  The
    group read for the level holds the last ".N" only, so the level of
    "1.2.3 Background and Scope" is 2 and not 3. *)
Theorem numbered_level_of_three_parts :
  detect_heading_patterns "1.2.3 Background and Scope" = (true, 2, 90)
  /\ (group 2 <$> re_match re_numbered "1.2.3 Background and Scope")
     = Some (Some ".3").
Proof. split; vm_compute; reflexivity. Qed.

(** ** Markers inside a text *)

(** C7: texts of a length between 3 and 150 with a URL, a domain, an e-mail
    address or a legal marker after their first character are not excluded:
    the patterns are tried at the start of the text only. *)
Theorem markers_inside_not_excluded :
  is_excluded_content "Visit www.example.com today" 1 = false
  /\ is_excluded_content "Contact: info@example.org" 1 = false
  /\ is_excluded_content "This document is confidential" 1 = false
  /\ is_excluded_content "www.example.com" 1 = true.
Proof. repeat split; vm_compute; reflexivity. Qed.

(** ** The score of a date with a month name *)

Definition march_date : string := "15 March 2023".

Lemma march_date_not_excluded (p : Z) : is_excluded_content march_date p = false.
Proof. vm_compute. reflexivity. Qed.

Lemma march_date_pattern : detect_heading_patterns march_date = (true, 1, 90).
Proof. vm_compute. reflexivity. Qed.

Lemma march_date_content (all_text_blocks : list TextBlock) :
  score_content all_text_blocks march_date true = -80.
Proof.
  unfold score_content.
  replace (any_in penalty_words (lower march_date)) with false
    by (vm_compute; reflexivity).
  replace (matches (re_search re_month_date (lower march_date))) with true
    by (vm_compute; reflexivity).
  replace (matches (re_match re_list_item (lower march_date))) with false
    by (vm_compute; reflexivity).
  replace (matches (re_search re_chapter (lower march_date))) with false
    by (vm_compute; reflexivity).
  replace (any_in structure_words (lower march_date)) with false
    by (vm_compute; reflexivity).
  rewrite andb_false_r. reflexivity.
Qed.

(** A block with the date as text, set twice as large as the body text of
    size 10, in the body font, not bold, at the left margin. *)
Definition large_date_block : TextBlock :=
  {| text := march_date; font_size := 20; font_flags := 0;
     font_name := "Helvetica"; x_position := 72; y_position := 350;
     page := 1; is_bold := false; bbox := [72; 350; 272; 370]%Q;
     line_height := 20 |}.

Definition helvetica_10 : FontAnalysis :=
  {| body_font_size := 10; body_font_name := "Helvetica" |}.

(** C6, as stated, fails: the large date reaches 90 + 60 + 10 - 80 = 80 and
    is accepted as a heading. *)
Lemma large_date_accepted :
  text large_date_block = "15 March 2023"
  /\ calculate_heading_likelihood [large_date_block] large_date_block
       helvetica_10 = Ok (true, Some H1, 80)
  /\ ~ (80 < 80).
Proof. split; [reflexivity |]. split; [vm_compute; reflexivity | lia]. Qed.

(** C6, amended: for a block with the text "15 March 2023" and a non-zero
    body size, the confidence is the pattern's 90 minus the date penalty 80
    plus the bonuses for size, bold, font family and position, whatever the
    rest of the document; the block is rejected when its size ratio is below
    1.5 and it is not bold, whatever its font name and position. *)
Theorem month_date_score (all_text_blocks : list TextBlock)
    (block : TextBlock) (font_analysis : FontAnalysis) :
  text block = "15 March 2023" ->
  Qeq_bool (body_font_size font_analysis) 0 = false ->
  let size_ratio := (font_size block / body_font_size font_analysis)%Q in
  let size_bonus :=
    if Qleb (3 # 2) size_ratio then 60
    else if Qleb (6 # 5) size_ratio then 30 else 0 in
  let bold_bonus := if is_bold block then 25 else 0 in
  let family_bonus :=
    if String.eqb (font_name block) (body_font_name font_analysis)
    then 0 else 15 in
  let position_bonus := if Qltb (x_position block) 100 then 10 else 0 in
  let confidence :=
    90 - 80 + size_bonus + bold_bonus + family_bonus + position_bonus in
  calculate_heading_likelihood all_text_blocks block font_analysis
    = Ok (80 <=? confidence, Some H1, confidence)
  /\ (Qleb (3 # 2) size_ratio = false -> is_bold block = false ->
      confidence < 80
      /\ calculate_heading_likelihood all_text_blocks block font_analysis
         = Ok (false, Some H1, confidence)).
Proof.
  intros Htext Hbody. cbv zeta.
  assert (Hscore :
    calculate_heading_likelihood all_text_blocks block font_analysis
    = Ok (80 <=? 90 - 80
            + (if Qleb (3 # 2) (font_size block / body_font_size font_analysis)
               then 60
               else if Qleb (6 # 5)
                         (font_size block / body_font_size font_analysis)
                    then 30 else 0)
            + (if is_bold block then 25 else 0)
            + (if String.eqb (font_name block) (body_font_name font_analysis)
               then 0 else 15)
            + (if Qltb (x_position block) 100 then 10 else 0),
          Some H1,
          90 - 80
            + (if Qleb (3 # 2) (font_size block / body_font_size font_analysis)
               then 60
               else if Qleb (6 # 5)
                         (font_size block / body_font_size font_analysis)
                    then 30 else 0)
            + (if is_bold block then 25 else 0)
            + (if String.eqb (font_name block) (body_font_name font_analysis)
               then 0 else 15)
            + (if Qltb (x_position block) 100 then 10 else 0))).
  { unfold calculate_heading_likelihood, score_pattern, score_family,
      score_position.
    rewrite Htext. fold march_date.
    rewrite march_date_not_excluded, march_date_pattern, Hbody,
      march_date_content.
    unfold score_size, score_bold. cbn [fst snd].
    destruct (Qleb (3 # 2) (font_size block / body_font_size font_analysis));
      destruct (Qleb 2 (font_size block / body_font_size font_analysis));
      destruct (Qleb (9 # 5) (font_size block / body_font_size font_analysis));
      destruct (Qleb (6 # 5) (font_size block / body_font_size font_analysis));
      destruct (is_bold block);
      destruct (String.eqb (font_name block) (body_font_name font_analysis));
      destruct (Qltb (x_position block) 100);
      reflexivity. }
  split; [exact Hscore |].
  intros Hsmall Hplain. rewrite Hscore. rewrite Hsmall, Hplain.
  destruct (Qleb (6 # 5) (font_size block / body_font_size font_analysis));
    destruct (String.eqb (font_name block) (body_font_name font_analysis));
    destruct (Qltb (x_position block) 100);
    (split; [lia | reflexivity]).
Qed.

(** The date in the size of the body text. *)
Definition small_date_block : TextBlock :=
  {| text := march_date; font_size := 10; font_flags := 0;
     font_name := "Times"; x_position := 72; y_position := 350;
     page := 1; is_bold := false; bbox := [72; 350; 272; 360]%Q;
     line_height := 10 |}.

Lemma month_date_score_witness :
  calculate_heading_likelihood [small_date_block] small_date_block helvetica_10
  = Ok (false, Some H1, 35).
Proof.
  pose proof (month_date_score [small_date_block] small_date_block
                helvetica_10) as H.
  cbv zeta in H.
  destruct H as [H _]; [reflexivity | vm_compute; reflexivity |].
  exact H.
Defined.

(** ** The score of a numbered heading *)

Definition overview_heading : string := "1.2 System Overview".

Lemma overview_not_excluded (p : Z) :
  is_excluded_content overview_heading p = false.
Proof. vm_compute. reflexivity. Qed.

Lemma overview_pattern : detect_heading_patterns overview_heading = (true, 2, 90).
Proof. vm_compute. reflexivity. Qed.

Lemma overview_content (all_text_blocks : list TextBlock) :
  score_content all_text_blocks overview_heading true
  = if occurrences all_text_blocks overview_heading <=? 2 then 20 else 0.
Proof.
  unfold score_content.
  replace (any_in penalty_words (lower overview_heading)) with false
    by (vm_compute; reflexivity).
  replace (matches (re_search re_month_date (lower overview_heading)))
    with false by (vm_compute; reflexivity).
  replace (matches (re_match re_list_item (lower overview_heading)))
    with false by (vm_compute; reflexivity).
  replace (matches (re_search re_chapter (lower overview_heading)))
    with false by (vm_compute; reflexivity).
  replace (any_in structure_words (lower overview_heading)) with true
    by (vm_compute; reflexivity).
  rewrite andb_false_r. reflexivity.
Qed.

(** The heading in bold at size 14, in the body font, right of x = 100. *)
Definition overview_block : TextBlock :=
  {| text := overview_heading; font_size := 14; font_flags := 16;
     font_name := "Helvetica"; x_position := 120; y_position := 400;
     page := 1; is_bold := true; bbox := [120; 400; 320; 414]%Q;
     line_height := 14 |}.

(** C9, as stated, fails: in a document where the heading occurs once, its
    confidence is 165, as the word "overview" adds 20. *)
Lemma overview_confidence_165 :
  text overview_block = "1.2 System Overview"
  /\ font_size overview_block = 14%Q
  /\ is_bold overview_block = true
  /\ body_font_size helvetica_10 = 10%Q
  /\ calculate_heading_likelihood [overview_block] overview_block helvetica_10
     = Ok (true, Some H1, 165)
  /\ 165 <> 145.
Proof.
  repeat split; try reflexivity; try lia.
Qed.

(** C9, amended: with body size 10, the bold block "1.2 System Overview" of
    size 14 is accepted with level H1, and its confidence is 145 (pattern 90,
    size 30, bold 25) plus 15 when its font differs from the body font, plus
    10 when it starts left of x = 100, plus 20 for the word "overview" when
    its text occurs at most twice in the document. *)
Theorem numbered_heading_score (all_text_blocks : list TextBlock)
    (block : TextBlock) (font_analysis : FontAnalysis) :
  text block = "1.2 System Overview" ->
  (font_size block == 14)%Q ->
  is_bold block = true ->
  (body_font_size font_analysis == 10)%Q ->
  let family_bonus :=
    if String.eqb (font_name block) (body_font_name font_analysis)
    then 0 else 15 in
  let position_bonus := if Qltb (x_position block) 100 then 10 else 0 in
  let overview_bonus :=
    if occurrences all_text_blocks (text block) <=? 2 then 20 else 0 in
  let confidence :=
    90 + 30 + 25 + family_bonus + position_bonus + overview_bonus in
  calculate_heading_likelihood all_text_blocks block font_analysis
    = Ok (true, Some H1, confidence)
  /\ 145 <= confidence.
Proof.
  intros Htext Hsize Hbold Hbody. cbv zeta.
  assert (Hratio :
    (font_size block / body_font_size font_analysis == 7 # 5)%Q).
  { rewrite Hsize, Hbody. reflexivity. }
  unfold calculate_heading_likelihood, score_pattern, score_family,
    score_position.
  rewrite Htext. fold overview_heading.
  rewrite overview_not_excluded, overview_pattern, overview_content, Hbold.
  assert (Hnonzero : Qeq_bool (body_font_size font_analysis) 0 = false).
  { rewrite Hbody. reflexivity. }
  rewrite Hnonzero.
  assert (Hbelow :
    Qleb (3 # 2) (font_size block / body_font_size font_analysis) = false).
  { unfold Qleb. rewrite Hratio. reflexivity. }
  assert (Habove :
    Qleb (6 # 5) (font_size block / body_font_size font_analysis) = true).
  { unfold Qleb. rewrite Hratio. reflexivity. }
  unfold score_size, score_bold. cbn [fst snd].
  rewrite Hbelow, Habove.
  destruct (String.eqb (font_name block) (body_font_name font_analysis));
    destruct (Qltb (x_position block) 100);
    destruct (occurrences all_text_blocks overview_heading <=? 2);
    (split; [reflexivity | lia]).
Qed.

Lemma numbered_heading_score_witness :
  calculate_heading_likelihood [overview_block] overview_block helvetica_10
  = Ok (true, Some H1, 165).
Proof.
  pose proof (numbered_heading_score [overview_block] overview_block
                helvetica_10) as H.
  cbv zeta in H.
  destruct H as [H _]; [reflexivity | reflexivity | reflexivity | reflexivity |].
  exact H.
Defined.

(** ** Stripping a text *)

Lemma chars_str (l : list ascii) : chars (str l) = l.
Proof. apply list_ascii_of_string_of_list_ascii. Qed.

(** A list that does not start with a space. *)
Definition no_lead (l : list ascii) : Prop :=
  match l with
  | [] => True
  | c :: _ => is_space c = false
  end.

Lemma lstrip_no_lead (l : list ascii) : no_lead (lstrip_chars l).
Proof.
  induction l as [| c l IH]; simpl; [exact I |].
  destruct (is_space c) eqn:Hc; [exact IH | exact Hc].
Qed.

Lemma lstrip_fixed (l : list ascii) : no_lead l -> lstrip_chars l = l.
Proof.
  destruct l as [| c l]; simpl; intros Hl; [reflexivity |]. now rewrite Hl.
Qed.

Lemma lstrip_suffix (l : list ascii) : exists p, l = p ++ lstrip_chars l.
Proof.
  induction l as [| c l [p Hp]]; simpl.
  - now exists [].
  - destruct (is_space c).
    + exists (c :: p). simpl. now rewrite <- Hp.
    + now exists [].
Qed.

Lemma strip_chars_idempotent (l : list ascii) :
  strip_chars (strip_chars l) = strip_chars l.
Proof.
  unfold strip_chars.
  set (a := lstrip_chars l).
  set (b := lstrip_chars (rev a)).
  assert (Ha : no_lead a) by apply lstrip_no_lead.
  assert (Hb : no_lead b) by apply lstrip_no_lead.
  assert (Hrev : no_lead (rev b)).
  { destruct (lstrip_suffix (rev a)) as [p Hp]. fold b in Hp.
    assert (Hsplit : a = rev b ++ rev p).
    { rewrite <- (rev_involutive a), Hp, rev_app_distr. reflexivity. }
    destruct (rev b) as [| c r] eqn:Hr; [exact I |].
    rewrite Hsplit in Ha. exact Ha. }
  rewrite (lstrip_fixed (rev b) Hrev), rev_involutive.
  now rewrite (lstrip_fixed b Hb).
Qed.

Lemma strip_idempotent (t : string) : strip (strip t) = strip t.
Proof.
  unfold strip. now rewrite chars_str, strip_chars_idempotent.
Qed.

(** A block with a blank text is excluded. *)
Lemma blank_excluded (t : string) (p : Z) :
  len (strip t) = 0 -> is_excluded_content t p = true.
Proof.
  intros Hlen. unfold is_excluded_content. now rewrite Hlen.
Qed.

(** ** The sort *)

Section SortFacts.
Context {A K : Type} (ltb : K -> K -> bool) (key : A -> K).

(** [x] does not come after [y]: the key of [y] is not below that of [x]. *)
Definition not_after (x y : A) : Prop := ltb (key y) (key x) = false.

Hypothesis ltb_asym : forall a b, ltb a b = true -> ltb b a = false.
Hypothesis ltb_cotrans :
  forall a b c, ltb b a = false -> ltb c b = false -> ltb c a = false.

Lemma insert_by_perm (x : A) (l : list A) :
  Permutation (insert_by ltb key x l) (x :: l).
Proof.
  induction l as [| y l IH]; simpl; [reflexivity |].
  destruct (ltb (key y) (key x)); [| reflexivity].
  rewrite IH. apply perm_swap.
Qed.

Lemma sort_by_perm (l : list A) : Permutation (sort_by ltb key l) l.
Proof.
  induction l as [| x l IH]; simpl; [reflexivity |].
  rewrite insert_by_perm. now apply perm_skip.
Qed.

Lemma insert_by_sorted (x : A) (l : list A) :
  StronglySorted not_after l ->
  StronglySorted not_after (insert_by ltb key x l).
Proof.
  induction 1 as [| y l Hsorted IH Hall]; simpl.
  - constructor; [constructor | constructor].
  - destruct (ltb (key y) (key x)) eqn:Hyx.
    + constructor; [exact IH |].
      rewrite insert_by_perm. constructor; [| exact Hall].
      unfold not_after. now apply ltb_asym.
    + constructor; [now constructor |].
      constructor; [exact Hyx |].
      eapply Forall_impl; [exact Hall |].
      intros z Hz. unfold not_after in *.
      now apply (ltb_cotrans (key x) (key y) (key z)).
Qed.

Lemma sort_by_sorted (l : list A) : StronglySorted not_after (sort_by ltb key l).
Proof.
  induction l as [| x l IH]; simpl; [constructor |].
  now apply insert_by_sorted.
Qed.

End SortFacts.

(** In a sorted list, an earlier element is related to every later one. *)
Lemma sorted_lookup {A : Type} (R : A -> A -> Prop) (l : list A) :
  StronglySorted R l ->
  forall i j a b,
    l !! i = Some a -> l !! j = Some b -> (i < j)%nat -> R a b.
Proof.
  induction 1 as [| x l Hsorted IH Hall]; intros i j a b Hi Hj Hlt.
  - discriminate.
  - destruct j as [| j]; [lia |]. simpl in Hj.
    destruct i as [| i]; simpl in Hi.
    + injection Hi as <-. rewrite Forall_forall in Hall.
      apply Hall. eapply list_elem_of_lookup_2. exact Hj.
    + apply (IH i j); [assumption | assumption | lia].
Qed.

(** ** The order of the sort keys *)

(** The order on the keys [(page, y_pos)]: by page, then by position. *)
Definition ZQ_le (a b : Z * Q) : Prop :=
  fst a < fst b \/ (fst a = fst b /\ (snd a <= snd b)%Q).

Lemma Qltb_false (x y : Q) : Qltb x y = false <-> (y <= x)%Q.
Proof.
  unfold Qltb. rewrite negb_false_iff. apply Qle_bool_iff.
Qed.

Lemma Qltb_true (x y : Q) : Qltb x y = true <-> (x < y)%Q.
Proof.
  unfold Qltb. rewrite negb_true_iff. split.
  - intros H. apply Qnot_le_lt. intros Hle.
    apply Qle_bool_iff in Hle. congruence.
  - intros H. destruct (Qle_bool y x) eqn:E; [| reflexivity].
    apply Qle_bool_iff in E. exfalso. now apply (Qlt_not_le x y).
Qed.

Lemma ZQ_ltb_false (a b : Z * Q) : ZQ_ltb b a = false <-> ZQ_le a b.
Proof.
  unfold ZQ_ltb, ZQ_le. destruct (fst b =? fst a) eqn:E; simpl.
  - apply Z.eqb_eq in E. rewrite Qltb_false. split.
    + intros H. right. split; [congruence | exact H].
    + intros [H | [_ H]]; [lia | exact H].
  - apply Z.eqb_neq in E. rewrite Z.ltb_ge. split.
    + intros H. left. lia.
    + intros [H | [H _]]; [lia | congruence].
Qed.

Lemma ZQ_ltb_asym (a b : Z * Q) : ZQ_ltb a b = true -> ZQ_ltb b a = false.
Proof.
  intros H. apply ZQ_ltb_false. revert H. unfold ZQ_ltb, ZQ_le.
  destruct (fst a =? fst b) eqn:E; simpl.
  - apply Z.eqb_eq in E. rewrite Qltb_true. intros H.
    right. split; [exact E | now apply Qlt_le_weak].
  - rewrite Z.ltb_lt. intros H. now left.
Qed.

Lemma ZQ_le_trans (a b c : Z * Q) : ZQ_le a b -> ZQ_le b c -> ZQ_le a c.
Proof.
  unfold ZQ_le. intros [Hab | [Hab Hab']] [Hbc | [Hbc Hbc']].
  - left. lia.
  - left. lia.
  - left. lia.
  - right. split; [congruence |]. now apply Qle_trans with (snd b).
Qed.

Lemma ZQ_ltb_cotrans (a b c : Z * Q) :
  ZQ_ltb b a = false -> ZQ_ltb c b = false -> ZQ_ltb c a = false.
Proof.
  rewrite !ZQ_ltb_false. apply ZQ_le_trans.
Qed.

(** ** The recorded positions *)

(** The position of the first block with a given key, among all blocks. *)
Definition first_position (text_blocks : list TextBlock) (k : string * Z)
    : option Q :=
  y_position <$> List.find (fun b => bool_decide (block_key b = k)) text_blocks.

(** [b] is the first block of [text_blocks] with key [k]. *)
Definition first_occurrence (text_blocks : list TextBlock) (k : string * Z)
    (b : TextBlock) : Prop :=
  exists l1 l2,
    text_blocks = l1 ++ b :: l2
    /\ block_key b = k
    /\ forall b', b' ∈ l1 -> block_key b' <> k.

Arguments block_key : simpl never.

Lemma record_positions_lookup (blocks : list TextBlock)
    (m : gmap (string * Z) Q) (k : string * Z) :
  record_positions blocks m !! k
  = match m !! k with
    | Some y => Some y
    | None => first_position blocks k
    end.
Proof.
  revert m. induction blocks as [| b blocks IH]; intros m; simpl.
  - unfold first_position. simpl. now destruct (m !! k).
  - unfold first_position. simpl.
    destruct (m !! block_key b) eqn:Hb; rewrite IH.
    + destruct (m !! k) eqn:Hk; [reflexivity |].
      rewrite bool_decide_eq_false_2; [reflexivity |]. congruence.
    + rewrite lookup_insert. destruct (decide (block_key b = k)) as [Heq | Hne].
      * rewrite Heq in Hb. rewrite Hb.
        now rewrite bool_decide_eq_true_2.
      * rewrite bool_decide_eq_false_2 by exact Hne.
        reflexivity.
Qed.

Lemma first_position_occurrence (blocks : list TextBlock) (k : string * Z)
    (b : TextBlock) :
  b ∈ blocks -> block_key b = k ->
  exists b0, first_occurrence blocks k b0
             /\ first_position blocks k = Some (y_position b0).
Proof.
  induction blocks as [| c blocks IH]; intros Hin Hkey.
  - now apply elem_of_nil in Hin.
  - destruct (decide (block_key c = k)) as [Hc | Hc].
    + exists c. split.
      * exists [], blocks. split; [reflexivity |]. split; [exact Hc |].
        intros b' Hb'. now apply elem_of_nil in Hb'.
      * unfold first_position. simpl.
        now rewrite bool_decide_eq_true_2.
    + apply elem_of_cons in Hin as [-> | Hin]; [contradiction |].
      destruct (IH Hin Hkey) as (b0 & (l1 & l2 & Hsplit & Hb0 & Hfirst) & Hpos).
      exists b0. split.
      * exists (c :: l1), l2. split; [simpl; now rewrite Hsplit |].
        split; [exact Hb0 |].
        intros b' Hb'. apply elem_of_cons in Hb' as [-> | Hb'];
          [exact Hc | now apply Hfirst].
      * unfold first_position in *. simpl.
        now rewrite bool_decide_eq_false_2.
Qed.

(** ** The headings that are kept *)

(** The scorer accepts the block as a heading. *)
Definition accepted (all_text_blocks : list TextBlock)
    (font_analysis : FontAnalysis) (b : TextBlock) : Prop :=
  exists level confidence,
    calculate_heading_likelihood all_text_blocks b font_analysis
    = Ok (true, level, confidence).

(** The outline entry made from an accepted block. *)
Definition heading_of (b : TextBlock) (level : option Level) (confidence : Z)
    : Heading :=
  {| h_text := strip (text b); h_page := page b; h_level := level;
     h_confidence := confidence; h_font_size := font_size b |}.

(** The key of an outline entry: its lowercased trimmed text and its page. *)
Definition entry_key (heading : Heading) : string * Z :=
  (lower (strip (h_text heading)), h_page heading).

(** [h] is made from a block of [blocks] that the scorer accepts and that no
    accepted block with the same key precedes. *)
Definition kept_from (all_text_blocks : list TextBlock)
    (font_analysis : FontAnalysis) (blocks : list TextBlock) (h : Heading)
    : Prop :=
  exists l1 b l2 level confidence,
    blocks = l1 ++ b :: l2
    /\ calculate_heading_likelihood all_text_blocks b font_analysis
       = Ok (true, level, confidence)
    /\ h = heading_of b level confidence
    /\ forall b', b' ∈ l1 -> block_key b' = block_key b ->
                  ~ accepted all_text_blocks font_analysis b'.

Lemma kept_from_app (all_text_blocks : list TextBlock)
    (font_analysis : FontAnalysis) (blocks more : list TextBlock)
    (h : Heading) :
  kept_from all_text_blocks font_analysis blocks h ->
  kept_from all_text_blocks font_analysis (blocks ++ more) h.
Proof.
  intros (l1 & b & l2 & level & confidence & Hsplit & Hscore & Hh & Hfirst).
  exists l1, b, (l2 ++ more), level, confidence.
  split; [| now repeat split].
  rewrite Hsplit, <- app_assoc. reflexivity.
Qed.

Lemma kept_from_keys (all_text_blocks : list TextBlock)
    (font_analysis : FontAnalysis) (blocks : list TextBlock) (h : Heading) :
  kept_from all_text_blocks font_analysis blocks h ->
  entry_key h = heading_key h
  /\ exists b, b ∈ blocks /\ block_key b = heading_key h.
Proof.
  intros (l1 & b & l2 & level & confidence & Hsplit & _ & Hh & _).
  subst h. split.
  - unfold entry_key, heading_key, heading_of. simpl.
    now rewrite strip_idempotent.
  - exists b. split; [| reflexivity].
    rewrite Hsplit. apply elem_of_app. right. apply list_elem_of_here.
Qed.

Lemma collect_headings_spec (all_text_blocks : list TextBlock)
    (font_analysis : FontAnalysis) (blocks : list TextBlock) :
  forall (done : list TextBlock) (headings : list Heading)
         (seen_texts : gset (string * Z)) (out : list Heading),
    NoDup (map heading_key headings) ->
    (forall k, k ∈ seen_texts <-> k ∈ map heading_key headings) ->
    (forall h, h ∈ headings ->
               kept_from all_text_blocks font_analysis done h) ->
    (forall b, b ∈ done -> accepted all_text_blocks font_analysis b ->
               block_key b ∈ seen_texts) ->
    collect_headings all_text_blocks font_analysis blocks headings seen_texts
    = Ok out ->
    NoDup (map heading_key out)
    /\ (forall h, h ∈ out ->
                  kept_from all_text_blocks font_analysis (done ++ blocks) h)
    /\ (forall b, b ∈ done ++ blocks ->
                  accepted all_text_blocks font_analysis b ->
                  block_key b ∈ map heading_key out).
Proof.
  induction blocks as [| b rest IH];
    intros done headings seen_texts out Hnodup Hseen Hkept Hcomplete Hrun.
  - simpl in Hrun. injection Hrun as <-. rewrite app_nil_r.
    split; [exact Hnodup |]. split; [exact Hkept |].
    intros b Hb Hacc. apply Hseen. now apply Hcomplete.
  - replace (done ++ b :: rest) with ((done ++ [b]) ++ rest)
      by (rewrite <- app_assoc; reflexivity).
    simpl in Hrun.
    destruct ((len (strip (text b)) =? 0)
              || bool_decide (block_key b ∈ seen_texts)) eqn:Hskip.
    + (* the block is skipped *)
      apply (IH (done ++ [b]) headings seen_texts out Hnodup Hseen);
        [| | exact Hrun].
      * intros h Hh. apply kept_from_app. now apply Hkept.
      * intros b' Hb' Hacc. apply elem_of_app in Hb' as [Hb' | Hb'].
        { now apply Hcomplete. }
        apply list_elem_of_singleton in Hb'. subst b'.
        apply orb_true_iff in Hskip as [Hblank | Hdup].
        { destruct Hacc as (level & confidence & Hacc).
          unfold calculate_heading_likelihood in Hacc.
          rewrite blank_excluded in Hacc by (now apply Z.eqb_eq).
          discriminate. }
        now apply bool_decide_eq_true_1 in Hdup.
    + apply orb_false_iff in Hskip as [_ Hfresh].
      apply bool_decide_eq_false_1 in Hfresh.
      destruct (calculate_heading_likelihood all_text_blocks b font_analysis)
        as [[[is_heading level] confidence] | e] eqn:Hscore;
        [| discriminate].
      simpl in Hrun. destruct is_heading.
      * (* the block is accepted *)
        refine (IH (done ++ [b]) _ _ out _ _ _ _ Hrun).
        { rewrite map_app. apply NoDup_app. split; [exact Hnodup |].
          split; [| apply NoDup_singleton].
          intros k Hk Hk'. apply list_elem_of_singleton in Hk'. subst k.
          apply Hfresh. now apply Hseen. }
        { intros k. rewrite map_app, elem_of_app, elem_of_union,
            elem_of_singleton, <- Hseen. simpl.
          rewrite list_elem_of_singleton. unfold heading_key. simpl.
          unfold block_key. tauto. }
        { intros h Hh. apply elem_of_app in Hh as [Hh | Hh].
          - apply kept_from_app. now apply Hkept.
          - apply list_elem_of_singleton in Hh. subst h.
            exists done, b, [], level, confidence.
            split; [reflexivity |]. split; [exact Hscore |].
            split; [reflexivity |].
            intros b' Hb' Hkey Hacc. apply Hfresh. rewrite <- Hkey.
            now apply Hcomplete. }
        { intros b' Hb' Hacc. apply elem_of_union.
          apply elem_of_app in Hb' as [Hb' | Hb'].
          - right. now apply Hcomplete.
          - apply list_elem_of_singleton in Hb'. subst b'.
            left. now apply elem_of_singleton. }
      * (* the block is rejected *)
        apply (IH (done ++ [b]) headings seen_texts out Hnodup Hseen);
          [| | exact Hrun].
        { intros h Hh. apply kept_from_app. now apply Hkept. }
        { intros b' Hb' Hacc. apply elem_of_app in Hb' as [Hb' | Hb'].
          - now apply Hcomplete.
          - apply list_elem_of_singleton in Hb'. subst b'.
            destruct Hacc as (level' & confidence' & Hacc).
            rewrite Hscore in Hacc. discriminate. }
Qed.

(** ** The outline of a document *)

(** What a successful run of [extract_outline] went through. *)
Lemma extract_outline_inv (doc : Doc) (res : OutlineResult) :
  extract_outline doc = Ok res ->
  exists text_blocks,
    extract_text_blocks doc = Ok text_blocks
    /\ ((text_blocks = [] /\ outline res = [])
        \/ exists font_analysis headings,
             analyze_fonts text_blocks = Ok font_analysis
             /\ collect_headings text_blocks font_analysis text_blocks [] ∅
                = Ok headings
             /\ outline res
                = sort_by ZQ_ltb (sort_key (record_positions text_blocks ∅))
                    headings).
Proof.
  unfold extract_outline, mbind, result_bind. intros Hrun.
  destruct (extract_text_blocks doc) as [text_blocks | e]; [| discriminate].
  exists text_blocks. split; [reflexivity |].
  destruct text_blocks as [| b rest].
  - left. injection Hrun as <-. now split.
  - right.
    destruct (analyze_fonts (b :: rest)) as [font_analysis | e] eqn:Hfonts;
      [| discriminate].
    destruct (collect_headings (b :: rest) font_analysis (b :: rest) [] ∅)
      as [headings | e] eqn:Hcollect; [| discriminate].
    injection Hrun as <-.
    exists font_analysis, headings. now repeat split.
Qed.

Lemma collect_headings_outline (text_blocks : list TextBlock)
    (font_analysis : FontAnalysis) (headings : list Heading) :
  collect_headings text_blocks font_analysis text_blocks [] ∅ = Ok headings ->
  NoDup (map heading_key headings)
  /\ (forall h, h ∈ headings ->
                kept_from text_blocks font_analysis text_blocks h)
  /\ (forall b, b ∈ text_blocks ->
                accepted text_blocks font_analysis b ->
                block_key b ∈ map heading_key headings).
Proof.
  intros Hrun.
  apply (collect_headings_spec text_blocks font_analysis text_blocks
           [] [] ∅ headings); [| | | | exact Hrun].
  - apply NoDup_nil_2.
  - intros k. simpl. rewrite elem_of_nil. set_solver.
  - intros h Hh. now apply elem_of_nil in Hh.
  - intros b Hb. now apply elem_of_nil in Hb.
Qed.

Lemma entry_keys_of_kept (all_text_blocks : list TextBlock)
    (font_analysis : FontAnalysis) (blocks : list TextBlock)
    (headings : list Heading) :
  (forall h, h ∈ headings ->
             kept_from all_text_blocks font_analysis blocks h) ->
  map entry_key headings = map heading_key headings.
Proof.
  induction headings as [| h headings IH]; intros Hkept; [reflexivity |].
  simpl. f_equal.
  - apply (kept_from_keys all_text_blocks font_analysis blocks h).
    apply Hkept. apply list_elem_of_here.
  - apply IH. intros h' Hh'. apply Hkept. now apply list_elem_of_further.
Qed.

(** C2: in the outline that [extract_outline] returns no two entries have
    the same lowercased trimmed text and page; each entry is made from a
    block that the scorer accepts and that no accepted block with the same
    key precedes in the document, and every accepted block has its key in
    the outline. *)
Theorem outline_without_duplicates (doc : Doc) (res : OutlineResult) :
  extract_outline doc = Ok res ->
  NoDup (map entry_key (outline res))
  /\ exists text_blocks,
       extract_text_blocks doc = Ok text_blocks
       /\ forall font_analysis,
            analyze_fonts text_blocks = Ok font_analysis ->
            (forall h, h ∈ outline res ->
                       kept_from text_blocks font_analysis text_blocks h)
            /\ (forall b, b ∈ text_blocks ->
                          accepted text_blocks font_analysis b ->
                          exists h, h ∈ outline res
                                    /\ entry_key h = block_key b).
Proof.
  intros Hrun.
  destruct (extract_outline_inv doc res Hrun)
    as (text_blocks & Hblocks & [[Hempty Hout] | Hfull]).
  - rewrite Hout. split; [apply NoDup_nil_2 |].
    exists text_blocks. split; [exact Hblocks |].
    intros font_analysis Hfonts. subst text_blocks. discriminate.
  - destruct Hfull as (font_analysis & headings & Hfonts & Hcollect & Hout).
    destruct (collect_headings_outline _ _ _ Hcollect)
      as (Hnodup & Hkept & Hcomplete).
    assert (Hperm : Permutation (outline res) headings).
    { rewrite Hout. apply sort_by_perm. }
    assert (Hkept' : forall h, h ∈ outline res ->
                kept_from text_blocks font_analysis text_blocks h).
    { intros h Hh. apply Hkept. now rewrite <- Hperm. }
    split.
    + rewrite (entry_keys_of_kept _ _ _ _ Hkept').
      rewrite Hperm. exact Hnodup.
    + exists text_blocks. split; [exact Hblocks |].
      intros font_analysis' Hfonts'.
      assert (font_analysis' = font_analysis) as -> by congruence.
      split; [exact Hkept' |].
      intros b Hb Hacc.
      destruct (list_elem_of_fmap_1 _ _ _ (Hcomplete b Hb Hacc))
        as (h & Hkey & Hh).
      exists h. split; [now rewrite Hperm |].
      rewrite Hkey.
      apply (kept_from_keys text_blocks font_analysis text_blocks h).
      now apply Hkept.
Qed.

(** The outline of the sample document. *)
Definition sample_outline : OutlineResult := extract_pdf_outline (Ok sample_doc).

Lemma sample_outline_texts :
  map (fun h => (h_text h, h_page h)) (outline sample_outline)
  = [("Annual Engineering Report", 1); ("1.2 System Overview", 1);
     ("Results:", 2); ("2. Second Chapter", 2)].
Proof. vm_compute. reflexivity. Qed.

Lemma outline_without_duplicates_witness :
  extract_outline sample_doc = Ok sample_outline
  /\ NoDup (map entry_key (outline sample_outline)).
Proof.
  split; [vm_compute; reflexivity |].
  destruct (outline_without_duplicates sample_doc sample_outline) as [H _];
    [vm_compute; reflexivity | exact H].
Defined.

(** ** The order of the outline *)

(** The position recorded for an entry: that of the first block, accepted
    or not, with the entry's lowercased text and page. *)
Definition recorded_position (text_blocks : list TextBlock) (h : Heading) : Q :=
  default 0%Q (first_position text_blocks (heading_key h)).

(** [a] may stand before [b]: a lower page, or the same page and a recorded
    position that is not larger. *)
Definition in_order (text_blocks : list TextBlock) (a b : Heading) : Prop :=
  h_page a < h_page b
  \/ (h_page a = h_page b
      /\ (recorded_position text_blocks a <= recorded_position text_blocks b)%Q).

Lemma sort_key_recorded (text_blocks : list TextBlock) (h : Heading) :
  sort_key (record_positions text_blocks ∅) h
  = (h_page h, recorded_position text_blocks h).
Proof.
  unfold sort_key, recorded_position.
  now rewrite record_positions_lookup, lookup_empty.
Qed.

Lemma sorted_weaken {A : Type} (R R' : A -> A -> Prop) (l : list A) :
  (forall a b, R a b -> R' a b) ->
  StronglySorted R l -> StronglySorted R' l.
Proof.
  intros Himpl. induction 1 as [| x l Hsorted IH Hall]; constructor.
  - exact IH.
  - eapply Forall_impl; [exact Hall |]. intros y. apply Himpl.
Qed.

(** C3: the outline that [extract_outline] returns is sorted by page and,
    within a page, by the position of the first block of the document,
    accepted or not, with the entry's lowercased text and page; an entry of
    a lower page stands before every entry of a higher page. *)
Theorem outline_in_order (doc : Doc) (res : OutlineResult) :
  extract_outline doc = Ok res ->
  exists text_blocks,
    extract_text_blocks doc = Ok text_blocks
    /\ (forall h, h ∈ outline res ->
          exists b, first_occurrence text_blocks (heading_key h) b
                    /\ recorded_position text_blocks h = y_position b)
    /\ StronglySorted (in_order text_blocks) (outline res)
    /\ (forall i j a b,
          outline res !! i = Some a -> outline res !! j = Some b ->
          h_page a < h_page b -> (i < j)%nat).
Proof.
  intros Hrun.
  destruct (extract_outline_inv doc res Hrun)
    as (text_blocks & Hblocks & Hcases).
  exists text_blocks. split; [exact Hblocks |].
  assert (Hsorted : StronglySorted (in_order text_blocks) (outline res)
            /\ forall h, h ∈ outline res ->
                 exists b, first_occurrence text_blocks (heading_key h) b
                   /\ recorded_position text_blocks h = y_position b).
  { destruct Hcases as [[_ Hout] | Hfull].
    - rewrite Hout. split; [constructor |].
      intros h Hh. now apply elem_of_nil in Hh.
    - destruct Hfull as (font_analysis & headings & _ & Hcollect & Hout).
      destruct (collect_headings_outline _ _ _ Hcollect) as (_ & Hkept & _).
      split.
      + rewrite Hout.
        apply (sorted_weaken
                 (not_after ZQ_ltb
                    (sort_key (record_positions text_blocks ∅)))).
        * intros a b Hab. unfold not_after in Hab.
          apply ZQ_ltb_false in Hab. rewrite !sort_key_recorded in Hab.
          exact Hab.
        * apply sort_by_sorted; [exact ZQ_ltb_asym | exact ZQ_ltb_cotrans].
      + intros h Hh. rewrite Hout in Hh.
        rewrite (sort_by_perm ZQ_ltb _ headings) in Hh.
        destruct (kept_from_keys _ _ _ _ (Hkept h Hh))
          as (_ & b & Hb & Hkey).
        destruct (first_position_occurrence text_blocks (heading_key h) b
                    Hb Hkey) as (b0 & Hfirst & Hpos).
        exists b0. split; [exact Hfirst |].
        unfold recorded_position. now rewrite Hpos. }
  destruct Hsorted as [Hsorted Hfirst].
  split; [exact Hfirst |]. split; [exact Hsorted |].
  intros i j a b Hi Hj Hpages.
  destruct (lt_eq_lt_dec i j) as [[Hlt | Heq] | Hgt]; [exact Hlt | |].
  - subst j. rewrite Hi in Hj. injection Hj as ->. lia.
  - pose proof (sorted_lookup _ _ Hsorted j i b a Hj Hi Hgt) as Hba.
    unfold in_order in Hba. lia.
Qed.

Lemma outline_in_order_witness :
  extract_outline sample_doc = Ok sample_outline
  /\ exists text_blocks,
       extract_text_blocks sample_doc = Ok text_blocks
       /\ StronglySorted (in_order text_blocks) (outline sample_outline).
Proof.
  split; [vm_compute; reflexivity |].
  destruct (outline_in_order sample_doc sample_outline)
    as (text_blocks & Hblocks & _ & Hsorted & _);
    [vm_compute; reflexivity |].
  exists text_blocks. split; [exact Hblocks | exact Hsorted].
Defined.

(** On the second page of the sample document "Results:" stands before
    "2. Second Chapter": the position recorded for it is that of its first,
    rejected block. *)
Lemma sample_recorded_positions :
  map (fun h => (h_text h,
                 Qeq_bool
                   (recorded_position
                      (match extract_text_blocks sample_doc with
                       | Ok l => l
                       | Raise _ => []
                       end) h)
                   40))
      (outline sample_outline)
  = [("Annual Engineering Report", false); ("1.2 System Overview", false);
     ("Results:", true); ("2. Second Chapter", false)].
Proof. vm_compute. reflexivity. Qed.

(** ** What a match binds

    [sem r w g g'] holds when [r] matches the word [w] and turns the groups
    [g] into [g']; every successful run of the matcher is such a match. *)

Inductive sem : regex -> list ascii -> groups -> groups -> Prop :=
| sem_eps g : sem Eps [] g g
| sem_cls p c g : p c = true -> sem (Cls p) [c] g g
| sem_cat r1 r2 w1 w2 g g1 g2 :
    sem r1 w1 g g1 -> sem r2 w2 g1 g2 -> sem (Cat r1 r2) (w1 ++ w2) g g2
| sem_or_l r1 r2 w g g' : sem r1 w g g' -> sem (Or r1 r2) w g g'
| sem_or_r r1 r2 w g g' : sem r2 w g g' -> sem (Or r1 r2) w g g'
| sem_star_nil r g : sem (Star r) [] g g
| sem_star_cons r w1 w2 g g1 g2 :
    sem r w1 g g1 -> sem (Star r) w2 g1 g2 -> sem (Star r) (w1 ++ w2) g g2
| sem_grp n r w g g' : sem r w g g' -> sem (Grp n r) w g ((n, w) :: g')
| sem_bol g : sem Bol [] g g
| sem_eol g : sem Eol [] g g.

Lemma rmatch_sound (r : regex) :
  forall (A : Type) (i : nat) (s : list ascii) (g : groups)
         (k : nat -> list ascii -> groups -> option A) (a : A),
    rmatch r i s g k = Some a ->
    exists w s' g',
      s = w ++ s' /\ sem r w g g' /\ k (i + length w)%nat s' g' = Some a.
Proof.
  induction r as [| p | r1 IH1 r2 IH2 | r1 IH1 r2 IH2 | r1 IH1 | n r1 IH1 | |];
    intros A i s g k a Hrun; simpl in Hrun.
  - exists [], s, g. rewrite Nat.add_0_r. repeat split; [constructor | exact Hrun].
  - destruct s as [| c s']; [discriminate |].
    destruct (p c) eqn:Hc; [| discriminate].
    exists [c], s', g. rewrite Nat.add_1_r.
    repeat split; [now constructor | exact Hrun].
  - apply IH1 in Hrun as (w1 & s1 & g1 & -> & Hsem1 & Hrun).
    apply IH2 in Hrun as (w2 & s2 & g2 & -> & Hsem2 & Hrun).
    exists (w1 ++ w2), s2, g2. rewrite length_app, Nat.add_assoc.
    split; [now rewrite app_assoc |].
    split; [now apply sem_cat with g1 | exact Hrun].
  - destruct (rmatch r1 i s g k) as [a' |] eqn:Hleft.
    + injection Hrun as ->.
      apply IH1 in Hleft as (w & s' & g' & -> & Hsem & Hk).
      exists w, s', g'. repeat split; [now apply sem_or_l | exact Hk].
    + apply IH2 in Hrun as (w & s' & g' & -> & Hsem & Hk).
      exists w, s', g'. repeat split; [now apply sem_or_r | exact Hk].
  - remember (length s) as fuel eqn:Hfuel. clear Hfuel.
    revert i s g Hrun. induction fuel as [| fuel IHfuel]; intros i s g Hrun.
    + exists [], s, g. rewrite Nat.add_0_r.
      repeat split; [constructor | exact Hrun].
    + match type of Hrun with
      | match ?m with _ => _ end = _ => destruct m as [a' |] eqn:Hbody
      end.
      * injection Hrun as ->.
        apply IH1 in Hbody as (w1 & s1 & g1 & -> & Hsem1 & Hloop).
        destruct (i <? i + length w1)%nat; [| discriminate].
        apply IHfuel in Hloop as (w2 & s2 & g2 & -> & Hsem2 & Hk).
        exists (w1 ++ w2), s2, g2. rewrite length_app, Nat.add_assoc.
        split; [now rewrite app_assoc |].
        split; [now apply sem_star_cons with g1 | exact Hk].
      * exists [], s, g. rewrite Nat.add_0_r.
        repeat split; [constructor | exact Hrun].
  - apply IH1 in Hrun as (w & s' & g' & -> & Hsem & Hk).
    exists w, s', ((n, w) :: g').
    split; [reflexivity |]. split; [now constructor |].
    replace (i + length w - i)%nat with (length w) in Hk by lia.
    now rewrite take_app_length in Hk.
  - destruct (i =? 0)%nat; [| discriminate].
    exists [], s, g. rewrite Nat.add_0_r.
    repeat split; [constructor | exact Hrun].
  - exists [], s, g. rewrite Nat.add_0_r.
    split; [reflexivity |]. split; [constructor |].
    destruct s as [| c [| c' s']]; [exact Hrun | | discriminate].
    destruct (is_char newline c); [exact Hrun | discriminate].
Qed.

Lemma re_match_sound (r : regex) (t : string) (g : groups) :
  re_match r t = Some g -> exists w, sem r w [] g.
Proof.
  unfold re_match. intros Hrun.
  apply rmatch_sound in Hrun as (w & s' & g' & _ & Hsem & Hk).
  injection Hk as ->. now exists w.
Qed.

(** ** The sub-number group of a numbered section *)

(** [(\.\d+)], the body of group 2 of [re_numbered]. *)
Definition dot_digits : regex := Cat (Chr ".") (Plus digit).

(** Every group 2 inside [r] is [(\.\d+)]. *)
Fixpoint group2_dot_digits (r : regex) : Prop :=
  match r with
  | Cat r1 r2 | Or r1 r2 => group2_dot_digits r1 /\ group2_dot_digits r2
  | Star r1 => group2_dot_digits r1
  | Grp n r1 =>
      (n <> 2%nat /\ group2_dot_digits r1) \/ (n = 2%nat /\ r1 = dot_digits)
  | _ => True
  end.

(** The number of dots in the text of group 2, when it is bound, is 1. *)
Definition one_dot (g : groups) : Prop :=
  match group 2 g with
  | Some d => count_char "." d = 1
  | None => True
  end.

Lemma is_char_eq (a c : ascii) : is_char a c = true -> c = a.
Proof.
  unfold is_char, is_code, code. intros H. apply N.eqb_eq in H.
  rewrite <- (ascii_N_embedding c), H. apply ascii_N_embedding.
Qed.

Lemma sem_star_class (p : ascii -> bool) (w : list ascii) (g g' : groups) :
  sem (Star (Cls p)) w g g' -> forallb p w = true.
Proof.
  intros Hsem. remember (Star (Cls p)) as r eqn:Hr.
  induction Hsem as [| | | | | | r0 w1 w2 g g1 g2 Hbody _ Hrest IH | | |];
    try discriminate; [reflexivity |].
  injection Hr as ->. rewrite forallb_app, (IH eq_refl), andb_true_r.
  inversion Hbody; subst. simpl. now rewrite andb_true_r.
Qed.

Lemma no_dot_in_digits (w : list ascii) :
  forallb is_digit w = true ->
  filter (fun a => Ascii.eqb "." a = true) w = [].
Proof.
  induction w as [| c w IH]; intros Hw; [reflexivity |].
  cbn [forallb] in Hw. apply andb_true_iff in Hw as [Hc Hw].
  rewrite filter_cons_False; [now apply IH |].
  intros Hdot. apply Ascii.eqb_eq in Hdot. subst c. discriminate.
Qed.

Lemma dot_digits_one_dot (w : list ascii) (g g' : groups) :
  sem dot_digits w g g' -> count_char "." (str w) = 1.
Proof.
  unfold dot_digits, Plus, Chr. intros Hsem.
  inversion Hsem as [| | r1 r2 w1 w2 g0 g1 g2 Hdot Hdigits | | | | | | |];
    subst; clear Hsem.
  inversion Hdot as [| p c g0 Hc | | | | | | | |]; subst; clear Hdot.
  apply is_char_eq in Hc. subst c.
  inversion Hdigits as [| | r1 r2 w1 w3 g0 g2 g3 Hfirst Hmore | | | | | | |];
    subst; clear Hdigits.
  inversion Hfirst as [| p c g0 Hc | | | | | | | |]; subst; clear Hfirst.
  apply sem_star_class in Hmore.
  unfold count_char. rewrite chars_str.
  change (["."%char] ++ [c] ++ w3) with ("."%char :: c :: w3).
  rewrite filter_cons_True by reflexivity.
  rewrite no_dot_in_digits; [reflexivity |].
  cbn [forallb]. now rewrite Hc, Hmore.
Qed.

Lemma sem_one_dot (r : regex) (w : list ascii) (g g' : groups) :
  sem r w g g' -> group2_dot_digits r -> one_dot g -> one_dot g'.
Proof.
  induction 1 as [| | r1 r2 w1 w2 g g1 g2 _ IH1 _ IH2
                  | r1 r2 w g g' _ IH | r1 r2 w g g' _ IH |
                  | r w1 w2 g g1 g2 _ IH1 _ IH2
                  | n r w g g' Hbody IH | |];
    simpl; intros Hr Hg; try exact Hg.
  - apply IH2; [apply Hr |]. apply IH1; [apply Hr | exact Hg].
  - apply IH; [apply Hr | exact Hg].
  - apply IH; [apply Hr | exact Hg].
  - apply IH2; [exact Hr |]. apply IH1; [exact Hr | exact Hg].
  - destruct Hr as [[Hn Hr] | [-> ->]].
    + unfold one_dot, group in *. cbn [group_chars].
      replace (Nat.eqb 2 n) with false
        by (symmetry; apply Nat.eqb_neq; congruence).
      apply IH; [exact Hr | exact Hg].
    + unfold one_dot, group. simpl.
      now apply (dot_digits_one_dot w g g').
Qed.

Lemma re_numbered_group2 : group2_dot_digits re_numbered.
Proof.
  unfold re_numbered. simpl.
  repeat split; try exact I.
  - left. split; [discriminate | unfold Plus, digit; simpl; auto].
  - right. split; reflexivity.
  - left. split; [discriminate | unfold Plus, Dot; simpl; auto].
Qed.

(** No numbered section gets level 3: the level is 1 without a sub-number
    and 2 with one, however many dots the number has. *)
Lemma numbered_level_below_3 (t : string) (level : Z) :
  numbered_rule t = Some level -> level = 1 \/ level = 2.
Proof.
  unfold numbered_rule. intros Hrule.
  destruct (re_match re_numbered t) as [g |] eqn:Hmatch; [| discriminate].
  destruct ((5 <? len (strip (group_text 3 g)))
            && negb (matches (re_match re_only_digits
                                (strip (group_text 3 g)))));
    [| discriminate].
  injection Hrule as <-.
  destruct (re_match_sound _ _ _ Hmatch) as (w & Hsem).
  assert (Hdots : one_dot g).
  { apply (sem_one_dot re_numbered w [] g Hsem re_numbered_group2).
    exact I. }
  unfold one_dot in Hdots. destruct (group 2 g) as [d |]; [| now left].
  destruct (len d =? 0); [now left |]. right. rewrite Hdots. reflexivity.
Qed.

Lemma detect_numbered_level_below_3 (t : string) (level : Z) :
  detect_heading_patterns t = (true, level, 90) -> level = 1 \/ level = 2.
Proof.
  unfold detect_heading_patterns.
  destruct (numbered_rule (strip t)) as [l |] eqn:Hrule.
  - intros H. injection H as <-. now apply (numbered_level_below_3 (strip t)).
  - destruct (lettered_rule (strip t)); [discriminate |].
    destruct (roman_rule (strip t)); [discriminate |].
    destruct (colon_rule (strip t)); [discriminate |].
    destruct (allcaps_rule (strip t)); discriminate.
Qed.

(** ** When the extraction returns *)

Lemma analyze_fonts_returns (text_blocks : list TextBlock) :
  text_blocks <> [] -> exists font_analysis,
    analyze_fonts text_blocks = Ok font_analysis.
Proof.
  destruct text_blocks as [| b rest]; [congruence |]. intros _.
  unfold analyze_fonts. simpl. eauto.
Qed.

Lemma calculate_heading_likelihood_returns (all_text_blocks : list TextBlock)
    (block : TextBlock) (font_analysis : FontAnalysis) :
  Qeq_bool (body_font_size font_analysis) 0 = false ->
  exists r,
    calculate_heading_likelihood all_text_blocks block font_analysis = Ok r.
Proof.
  intros Hbody. unfold calculate_heading_likelihood.
  destruct (is_excluded_content (text block) (page block)); [eauto |].
  rewrite Hbody.
  destruct (score_bold (is_bold block) _) as [total_confidence suggested_level].
  eauto.
Qed.

Lemma collect_headings_returns (all_text_blocks : list TextBlock)
    (font_analysis : FontAnalysis) (blocks : list TextBlock) :
  Qeq_bool (body_font_size font_analysis) 0 = false ->
  forall headings seen_texts, exists out,
    collect_headings all_text_blocks font_analysis blocks headings seen_texts
    = Ok out.
Proof.
  intros Hbody. induction blocks as [| b rest IH]; intros headings seen_texts.
  - simpl. eauto.
  - simpl.
    destruct ((len (strip (text b)) =? 0)
              || bool_decide (block_key b ∈ seen_texts)); [apply IH |].
    destruct (calculate_heading_likelihood_returns all_text_blocks b
                font_analysis Hbody) as ([[is_heading level] confidence] & ->).
    simpl. destruct is_heading; apply IH.
Qed.

(** With well-formed spans and a body font size other than 0 the extraction
    returns an outline. *)
Lemma extract_outline_returns (doc : Doc) (text_blocks : list TextBlock) :
  extract_text_blocks doc = Ok text_blocks ->
  (forall font_analysis,
     analyze_fonts text_blocks = Ok font_analysis ->
     Qeq_bool (body_font_size font_analysis) 0 = false) ->
  exists res, extract_outline doc = Ok res.
Proof.
  intros Hblocks Hbody. unfold extract_outline. rewrite Hblocks.
  unfold mbind, result_bind.
  destruct text_blocks as [| b rest]; [eauto |].
  destruct (analyze_fonts_returns (b :: rest)) as (font_analysis & Hfonts);
    [discriminate |].
  rewrite Hfonts.
  destruct (collect_headings_returns (b :: rest) font_analysis (b :: rest)
              (Hbody font_analysis Hfonts) [] ∅) as (headings & ->).
  eauto.
Qed.

(** * Further properties *)

(** ** The text blocks of a document *)

Lemma for_each_elem {A B : Type} (f : A -> result (list B)) (l : list A)
    (out : list B) (y : B) :
  for_each f l = Ok out -> y ∈ out ->
  exists x ys, x ∈ l /\ f x = Ok ys /\ y ∈ ys.
Proof.
  revert out. induction l as [| x l IH]; intros out Hrun Hy; simpl in Hrun.
  - injection Hrun as <-. now apply elem_of_nil in Hy.
  - unfold mbind, result_bind in Hrun.
    destruct (f x) as [ys | e] eqn:Hx; [| discriminate].
    destruct (for_each f l) as [zs | e]; [| discriminate].
    injection Hrun as <-. apply elem_of_app in Hy as [Hy | Hy].
    + exists x, ys. split; [apply list_elem_of_here | now split].
    + destruct (IH zs eq_refl Hy) as (x' & ys' & Hx' & Hf & Hy').
      exists x', ys'. split; [now apply list_elem_of_further | now split].
Qed.

(** Bit 4 of the flags, as [flags & 2**4] reads it. *)
Lemma land_bit_4 (flags : Z) :
  negb (Z.land flags (2 ^ 4) =? 0) = Z.testbit flags 4.
Proof.
  assert (Hland : Z.land flags (2 ^ 4)
                  = if Z.testbit flags 4 then 2 ^ 4 else 0).
  { apply Z.bits_inj'. intros n Hn. rewrite Z.land_spec.
    rewrite (Z.pow2_bits_eqb 4 n) by lia.
    destruct (Z.eqb_spec 4 n) as [<- | Hne].
    - destruct (Z.testbit flags 4); [reflexivity |].
      now rewrite Z.bits_0.
    - rewrite andb_false_r. destruct (Z.testbit flags 4).
      + rewrite (Z.pow2_bits_eqb 4 n) by lia. symmetry. now apply Z.eqb_neq.
      + now rewrite Z.bits_0. }
  rewrite Hland. now destruct (Z.testbit flags 4).
Qed.

(** What [extract_text_blocks] guarantees of a block on page [p]. *)
Definition produced_block (p : Z) (b : TextBlock) : Prop :=
  page b = p
  /\ strip (text b) = text b
  /\ 2 <= len (text b)
  /\ is_bold b = Z.testbit (font_flags b) 4.

Lemma line_blocks_produced (page_num : Z) (line : Line)
    (bs : list TextBlock) (b : TextBlock) :
  line_blocks page_num line = Ok bs -> b ∈ bs ->
  produced_block (page_num + 1) b.
Proof.
  unfold line_blocks, mbind, result_bind. intros Hrun Hb.
  destruct (getitem "spans" (line_spans line)) as [spans | e];
    [| discriminate].
  destruct (scan_spans spans "" []) as [[line_text kept] | e];
    [| discriminate].
  destruct ((len (strip line_text) =? 0) || (len (strip line_text) <? 2))
    eqn:Hshort.
  { injection Hrun as <-. now apply elem_of_nil in Hb. }
  destruct kept as [| s kept].
  { injection Hrun as <-. now apply elem_of_nil in Hb. }
  destruct (dominant (s :: kept)) as [d | e]; [| discriminate].
  destruct (getitem "size" (span_size d)) as [size | e]; [| discriminate].
  destruct (getitem "flags" (span_flags d)) as [flags | e]; [| discriminate].
  destruct (getitem "bbox" (span_bbox d)) as [sbbox | e]; [| discriminate].
  destruct (index sbbox 0) as [x | e]; [| discriminate].
  destruct (index sbbox 1) as [y | e]; [| discriminate].
  destruct (getitem "bbox" (line_bbox line)) as [lbbox | e]; [| discriminate].
  destruct (index lbbox 3) as [bottom | e]; [| discriminate].
  destruct (index lbbox 1) as [top | e]; [| discriminate].
  injection Hrun as <-. apply list_elem_of_singleton in Hb. subst b.
  apply orb_false_iff in Hshort as [_ Hshort]. apply Z.ltb_ge in Hshort.
  unfold produced_block. cbn [page text is_bold font_flags].
  split; [reflexivity |]. split; [apply strip_idempotent |].
  split; [exact Hshort | apply land_bit_4].
Qed.

Lemma block_blocks_produced (page_num : Z) (block : Block)
    (bs : list TextBlock) (b : TextBlock) :
  block_blocks page_num block = Ok bs -> b ∈ bs ->
  produced_block (page_num + 1) b.
Proof.
  unfold block_blocks. intros Hrun Hb.
  destruct (block_lines block) as [lines |].
  - destruct (for_each_elem _ _ _ _ Hrun Hb) as (line & ys & _ & Hline & Hy).
    now apply (line_blocks_produced page_num line ys).
  - injection Hrun as <-. now apply elem_of_nil in Hb.
Qed.

Lemma pages_blocks_produced (pages : list Page) :
  forall (page_num : Z) (out : list TextBlock),
    pages_blocks page_num pages = Ok out ->
    Forall (fun b => exists p,
              page_num + 1 <= p <= page_num + Z.of_nat (length pages)
              /\ produced_block p b) out
    /\ StronglySorted (fun a b => page a <= page b) out.
Proof.
  induction pages as [| pg rest IH]; intros page_num out Hrun;
    simpl in Hrun.
  - injection Hrun as <-. split; constructor.
  - unfold mbind, result_bind in Hrun.
    destruct (for_each (block_blocks page_num) pg) as [bs | e] eqn:Hpage;
      [| discriminate].
    destruct (pages_blocks (page_num + 1) rest) as [cs | e] eqn:Hrest;
      [| discriminate].
    injection Hrun as <-.
    destruct (IH (page_num + 1) cs Hrest) as [Hcs Hsorted].
    assert (Hbs : Forall (produced_block (page_num + 1)) bs).
    { apply Forall_forall. intros b Hb.
      destruct (for_each_elem _ _ _ _ Hpage Hb) as (blk & ys & _ & Hblk & Hy).
      now apply (block_blocks_produced page_num blk ys). }
    split.
    + apply Forall_app. split.
      * eapply Forall_impl; [exact Hbs |]. intros b Hb.
        exists (page_num + 1). split; [simpl length; lia | exact Hb].
      * eapply Forall_impl; [exact Hcs |]. intros b (p & Hp & Hb).
        exists p. split; [simpl length; lia | exact Hb].
    + apply StronglySorted_app_2.
      * intros a b Ha Hb.
        rewrite Forall_forall in Hbs. destruct (Hbs a Ha) as [-> _].
        rewrite Forall_forall in Hcs. destruct (Hcs b Hb) as (p & Hp & -> & _).
        lia.
      * clear Hpage. induction Hbs as [| b bs Hb Hbs IHbs]; constructor.
        { exact IHbs. }
        eapply Forall_impl; [exact Hbs |]. intros b' Hb'.
        destruct Hb as [-> _]. destruct Hb' as [-> _]. lia.
      * exact Hsorted.
Qed.


(** The blocks of the sample document. *)
Definition sample_blocks : list TextBlock :=
  match extract_text_blocks sample_doc with
  | Ok text_blocks => text_blocks
  | Raise _ => []
  end.

Lemma sample_blocks_extracted : extract_text_blocks sample_doc = Ok sample_blocks.
Proof. vm_compute. reflexivity. Qed.


(** X2: [extract_text_blocks] lists the blocks in page order. *)
Theorem text_blocks_in_page_order (doc : Doc) (text_blocks : list TextBlock) :
  extract_text_blocks doc = Ok text_blocks ->
  StronglySorted (fun a b => page a <= page b) text_blocks.
Proof.
  unfold extract_text_blocks. intros Hrun.
  now destruct (pages_blocks_produced doc 0 text_blocks Hrun) as [_ Hsorted].
Qed.

Lemma text_blocks_in_page_order_witness :
  StronglySorted (fun a b => page a <= page b) sample_blocks.
Proof.
  apply (text_blocks_in_page_order sample_doc sample_blocks).
  vm_compute. reflexivity.
Defined.

(** ** Malformed and empty documents *)

Lemma scan_spans_raises (spans : list Span) (s : Span) :
  s ∈ spans -> span_text s = None ->
  forall line_text kept, exists e,
    scan_spans spans line_text kept = Raise e.
Proof.
  intros Hs Hnone. induction spans as [| s' spans IH];
    intros line_text kept.
  - now apply elem_of_nil in Hs.
  - simpl. unfold mbind, result_bind.
    apply elem_of_cons in Hs as [<- | Hs].
    + rewrite Hnone. simpl. eauto.
    + destruct (getitem "text" (span_text s')) as [t | e]; [| eauto].
      destruct (negb (len (strip t) =? 0)); now apply IH.
Qed.

Lemma for_each_raises {A B : Type} (f : A -> result (list B)) (l : list A)
    (x : A) :
  x ∈ l -> (exists e, f x = Raise e) -> exists e, for_each f l = Raise e.
Proof.
  intros Hx [e He]. induction l as [| x' l IH].
  - now apply elem_of_nil in Hx.
  - simpl. unfold mbind, result_bind.
    apply elem_of_cons in Hx as [<- | Hx].
    + rewrite He. eauto.
    + destruct (f x') as [ys | e']; [| eauto].
      destruct (IH Hx) as [e' ->]. eauto.
Qed.

Lemma pages_blocks_raises (pages : list Page) (pg : Page) :
  pg ∈ pages ->
  (forall page_num, exists e,
     for_each (block_blocks page_num) pg = Raise e) ->
  forall page_num, exists e, pages_blocks page_num pages = Raise e.
Proof.
  intros Hpg Hraise. induction pages as [| pg' pages IH]; intros page_num.
  - now apply elem_of_nil in Hpg.
  - simpl. unfold mbind, result_bind.
    apply elem_of_cons in Hpg as [<- | Hpg].
    + destruct (Hraise page_num) as [e ->]. eauto.
    + destruct (for_each (block_blocks page_num) pg') as [bs | e]; [| eauto].
      destruct (IH Hpg (page_num + 1)) as [e ->]. eauto.
Qed.

(** X3: a span without a "text" entry, in any line of any page, makes
    [extract_text_blocks] raise, and [extract_pdf_outline] answers with the
    error dictionary. *)
Theorem span_without_text_is_an_error (doc : Doc) (pg : Page) (blk : Block)
    (lines : list Line) (line : Line) (spans : list Span) (s : Span) :
  pg ∈ doc -> blk ∈ pg -> block_lines blk = Some lines ->
  line ∈ lines -> line_spans line = Some spans ->
  s ∈ spans -> span_text s = None ->
  (exists e, extract_text_blocks doc = Raise e)
  /\ extract_pdf_outline (Ok doc) = error_result.
Proof.
  intros Hpg Hblk Hlines Hline Hspans Hs Hnone.
  assert (Hraise : exists e, extract_text_blocks doc = Raise e).
  { unfold extract_text_blocks. apply (pages_blocks_raises doc pg Hpg).
    intros page_num. apply (for_each_raises _ pg blk Hblk).
    unfold block_blocks. rewrite Hlines.
    apply (for_each_raises _ lines line Hline).
    unfold line_blocks, mbind, result_bind. rewrite Hspans. simpl.
    destruct (scan_spans_raises spans s Hs Hnone "" []) as [e ->]. eauto. }
  split; [exact Hraise |].
  destruct Hraise as [e He].
  unfold extract_pdf_outline, extract_outline, mbind, result_bind.
  now rewrite He.
Qed.

(** A line whose second span has no text. *)
Definition textless_span : Span :=
  {| span_text := None; span_size := Some 10%Q; span_flags := Some 0;
     span_font := None; span_bbox := Some [72; 80; 272; 90]%Q |}.

Definition textless_doc : Doc :=
  [ [ {| block_lines :=
           Some [ {| line_spans :=
                       Some [sample_span "Hello" 10 0 72 80; textless_span];
                     line_bbox := Some [72; 80; 272; 90]%Q |} ] |} ] ].

Lemma span_without_text_is_an_error_witness :
  extract_pdf_outline (Ok textless_doc) = error_result.
Proof.
  eapply (span_without_text_is_an_error textless_doc).
  - apply list_elem_of_here.
  - apply list_elem_of_here.
  - reflexivity.
  - apply list_elem_of_here.
  - reflexivity.
  - apply list_elem_of_further. apply list_elem_of_here.
  - reflexivity.
Defined.

Lemma for_each_nothing {A B : Type} (f : A -> result (list B)) (l : list A) :
  (forall x, x ∈ l -> f x = Ok []) -> for_each f l = Ok [].
Proof.
  induction l as [| x l IH]; intros Hall; [reflexivity |].
  simpl. unfold mbind, result_bind.
  rewrite (Hall x) by apply list_elem_of_here.
  rewrite IH; [reflexivity |].
  intros y Hy. apply Hall. now apply list_elem_of_further.
Qed.

Lemma pages_blocks_nothing (pages : list Page) :
  (forall pg blk, pg ∈ pages -> blk ∈ pg -> block_lines blk = None) ->
  forall page_num, pages_blocks page_num pages = Ok [].
Proof.
  induction pages as [| pg pages IH]; intros Hall page_num; [reflexivity |].
  simpl. unfold mbind, result_bind.
  rewrite for_each_nothing.
  - rewrite IH; [reflexivity |].
    intros pg' blk Hpg' Hblk.
    apply (Hall pg' blk); [now apply list_elem_of_further | exact Hblk].
  - intros blk Hblk. unfold block_blocks.
    now rewrite (Hall pg blk (list_elem_of_here _ _) Hblk).
Qed.

(** X4: a document whose blocks all lack "lines" (pages of images only)
    has no text block, and its outline is the empty document with the title
    "Empty Document" and the number of its pages. *)
Theorem image_only_document (doc : Doc) :
  (forall pg blk, pg ∈ doc -> blk ∈ pg -> block_lines blk = None) ->
  extract_text_blocks doc = Ok []
  /\ extract_pdf_outline (Ok doc)
     = {| title := "Empty Document"; outline := [];
          metadata := Some {| page_count := Z.of_nat (length doc) |} |}.
Proof.
  intros Hall.
  assert (Hblocks : extract_text_blocks doc = Ok []).
  { unfold extract_text_blocks. now apply pages_blocks_nothing. }
  split; [exact Hblocks |].
  unfold extract_pdf_outline, extract_outline, mbind, result_bind.
  now rewrite Hblocks.
Qed.

(** Three pages, each with one image block. *)
Definition scanned_doc : Doc :=
  [ [ {| block_lines := None |} ]; [ {| block_lines := None |} ];
    [ {| block_lines := None |} ] ].

Lemma image_only_document_witness :
  extract_pdf_outline (Ok scanned_doc)
  = {| title := "Empty Document"; outline := [];
       metadata := Some {| page_count := 3 |} |}.
Proof.
  apply (image_only_document scanned_doc).
  intros pg blk Hpg Hblk.
  repeat (apply elem_of_cons in Hpg as [-> | Hpg];
          [apply list_elem_of_singleton in Hblk; now subst blk |]).
  now apply elem_of_nil in Hpg.
Defined.

(** ** The body font *)

(** [m] is the first of the values of [l] that occur most often: it stands in
    [l], no value before it occurs as often, no value after it occurs more
    often. *)
Definition first_mode {A : Type} (eqb : A -> A -> bool) (l : list A) (m : A)
    : Prop :=
  exists l1 l2,
    l = l1 ++ m :: l2
    /\ (forall y, y ∈ l1 ->
          (occurrences_of eqb y l < occurrences_of eqb m l)%nat)
    /\ (forall y, y ∈ l2 ->
          (occurrences_of eqb y l <= occurrences_of eqb m l)%nat).

Lemma first_most_common_spec {A : Type} (eqb : A -> A -> bool)
    (all : list A) (l : list A) :
  forall (before after : list A) (best : A),
    (forall y, y ∈ before ->
       (occurrences_of eqb y all < occurrences_of eqb best all)%nat) ->
    (forall y, y ∈ after ->
       (occurrences_of eqb y all <= occurrences_of eqb best all)%nat) ->
    exists l1 l2,
      before ++ best :: after ++ l
      = l1 ++ first_most_common eqb all l best :: l2
      /\ (forall y, y ∈ l1 ->
            (occurrences_of eqb y all
             < occurrences_of eqb (first_most_common eqb all l best) all)%nat)
      /\ (forall y, y ∈ l2 ->
            (occurrences_of eqb y all
             <= occurrences_of eqb (first_most_common eqb all l best) all)%nat).
Proof.
  induction l as [| x l IH]; intros before after best Hbefore Hafter; simpl.
  - exists before, after. rewrite app_nil_r. now repeat split.
  - destruct (occurrences_of eqb best all <? occurrences_of eqb x all)%nat
      eqn:Hmore.
    + apply Nat.ltb_lt in Hmore.
      destruct (IH (before ++ best :: after) [] x) as (l1 & l2 & Heq & H1 & H2).
      * intros y Hy. apply elem_of_app in Hy as [Hy | Hy].
        { specialize (Hbefore y Hy). lia. }
        apply elem_of_cons in Hy as [-> | Hy]; [exact Hmore |].
        specialize (Hafter y Hy). lia.
      * intros y Hy. now apply elem_of_nil in Hy.
      * exists l1, l2. split; [| now split].
        rewrite <- Heq. rewrite <- !app_assoc. reflexivity.
    + apply Nat.ltb_ge in Hmore.
      destruct (IH before (after ++ [x]) best) as (l1 & l2 & Heq & H1 & H2).
      * exact Hbefore.
      * intros y Hy. apply elem_of_app in Hy as [Hy | Hy];
          [now apply Hafter |].
        apply list_elem_of_singleton in Hy. now subst y.
      * exists l1, l2. split; [| now split].
        rewrite <- Heq. rewrite <- !app_assoc. reflexivity.
Qed.

Lemma most_common_first_mode {A : Type} (eqb : A -> A -> bool) (l : list A)
    (m : A) :
  most_common eqb l = Ok m -> first_mode eqb l m.
Proof.
  unfold most_common. destruct l as [| x l]; [discriminate |].
  intros H. injection H as <-.
  destruct (first_most_common_spec eqb (x :: l) l [] [] x)
    as (l1 & l2 & Heq & H1 & H2).
  - intros y Hy. now apply elem_of_nil in Hy.
  - intros y Hy. now apply elem_of_nil in Hy.
  - exists l1, l2. now repeat split.
Qed.

(** X5: the body font size [analyze_fonts] returns is the first of the most
    frequent font sizes of the blocks, and the body font name the first of
    the most frequent font names; sizes are counted up to numeric
    equality. *)
Theorem body_font_is_first_mode (text_blocks : list TextBlock)
    (font_analysis : FontAnalysis) :
  analyze_fonts text_blocks = Ok font_analysis ->
  first_mode Qeq_bool (map font_size text_blocks)
    (body_font_size font_analysis)
  /\ first_mode String.eqb (map font_name text_blocks)
       (body_font_name font_analysis).
Proof.
  unfold analyze_fonts, mbind, result_bind. intros Hrun.
  destruct (most_common Qeq_bool (map font_size text_blocks))
    as [size | e] eqn:Hsize; [| discriminate].
  destruct (most_common String.eqb (map font_name text_blocks))
    as [name | e] eqn:Hname; [| discriminate].
  injection Hrun as <-. simpl.
  split; now apply most_common_first_mode.
Qed.

Lemma body_font_is_first_mode_witness :
  first_mode Qeq_bool (map font_size sample_blocks) 10%Q.
Proof.
  apply (body_font_is_first_mode sample_blocks helvetica_10).
  vm_compute. reflexivity.
Defined.

(** [analyze_fonts] raises [IndexError] on an empty list of blocks and on
    no other list. *)
Lemma analyze_fonts_raises_iff_empty (text_blocks : list TextBlock)
    (e : exn) :
  analyze_fonts text_blocks = Raise e <-> text_blocks = [] /\ e = IndexError.
Proof.
  split.
  - destruct text_blocks as [| b rest]; [| discriminate].
    intros H. injection H as <-. now split.
  - intros [-> ->]. reflexivity.
Qed.

(** ** Surrounding blanks *)

(** X6: the exclusion filter and the pattern detector look at the trimmed
    text only: a text and its trimmed form get the same answers, on any
    page. *)
Theorem trimming_changes_nothing (t : string) (p p' : Z) :
  is_excluded_content (strip t) p = is_excluded_content t p'
  /\ detect_heading_patterns (strip t) = detect_heading_patterns t.
Proof.
  unfold is_excluded_content, detect_heading_patterns.
  now rewrite strip_idempotent.
Qed.

(** ** The results of the pattern detector *)

(** X7: [detect_heading_patterns] returns [(False, 0, 0)] or a match of
    level 1 with confidence 90, 80, 70 or 50, or a match of level 2 with
    confidence 90 or 60; it never returns level 3. *)
Theorem detect_heading_patterns_results (t : string) :
  detect_heading_patterns t = (false, 0, 0)
  \/ (exists confidence,
        detect_heading_patterns t = (true, 1, confidence)
        /\ confidence ∈ [90; 80; 70; 50])
  \/ (exists confidence,
        detect_heading_patterns t = (true, 2, confidence)
        /\ confidence ∈ [90; 60]).
Proof.
  unfold detect_heading_patterns.
  destruct (numbered_rule (strip t)) as [level |] eqn:Hrule.
  - right. destruct (numbered_level_below_3 _ _ Hrule) as [-> | ->].
    + left. exists 90. split; [reflexivity | set_solver].
    + right. exists 90. split; [reflexivity | set_solver].
  - destruct (lettered_rule (strip t)).
    { right. left. exists 80. split; [reflexivity | set_solver]. }
    destruct (roman_rule (strip t)).
    { right. left. exists 70. split; [reflexivity | set_solver]. }
    destruct (colon_rule (strip t)).
    { right. right. exists 60. split; [reflexivity | set_solver]. }
    destruct (allcaps_rule (strip t)).
    { right. left. exists 50. split; [reflexivity | set_solver]. }
    now left.
Qed.

(** ** Markers at the start of a text *)

(** The markers of the first two exclusion patterns that are plain words. *)
Definition start_markers : list string :=
  ["copyright"; str [ascii_of_N 169]; "all rights reserved"; "confidential";
   "proprietary"; "http://"; "https://"; "www."; ".com"; ".org"; ".net"].

Lemma is_prefix_split (p l : list ascii) :
  is_prefix p l = true -> exists rest, l = p ++ rest.
Proof.
  revert l. induction p as [| a p IH]; intros l Hl.
  - now exists l.
  - destruct l as [| c l]; [discriminate |]. simpl in Hl.
    destruct (Ascii.eqb_spec a c) as [<- | _]; [| discriminate].
    destruct (IH l Hl) as [rest ->]. now exists rest.
Qed.

Lemma start_marker_matches (m : string) (rest : list ascii) :
  m ∈ start_markers ->
  existsb (fun pattern =>
             matches (rmatch pattern 0%nat (chars m ++ rest) []
                        (fun _ _ g => Some g)))
    exclusion_patterns = true.
Proof.
  intros Hm. unfold start_markers in Hm.
  repeat (apply elem_of_cons in Hm as [-> | Hm];
          [vm_compute; reflexivity |]).
  now apply elem_of_nil in Hm.
Qed.

(** X8: a text that starts, after trimming and lowercasing, with one of
    the words "copyright", the copyright sign, "all rights reserved",
    "confidential", "proprietary", "http://", "https://", "www.", ".com",
    ".org" or ".net" is excluded, whatever follows. *)
Theorem marker_at_start_excluded (t : string) (p : Z) (m : string) :
  m ∈ start_markers ->
  startswith (lower (strip t)) m = true ->
  is_excluded_content t p = true.
Proof.
  intros Hm Hstart. unfold is_excluded_content.
  destruct ((len (strip t) <? 3) || (150 <? len (strip t)));
    [reflexivity |].
  unfold startswith in Hstart.
  destruct (is_prefix_split _ _ Hstart) as [rest Hrest].
  unfold re_match. rewrite Hrest. now apply start_marker_matches.
Qed.

Lemma marker_at_start_excluded_witness :
  is_excluded_content "  Confidential - internal draft" 1 = true.
Proof.
  apply (marker_at_start_excluded _ 1 "confidential").
  - do 3 apply list_elem_of_further. apply list_elem_of_here.
  - vm_compute. reflexivity.
Defined.

(** ** The first character of a match *)

(** [r] matches the empty word. *)
Fixpoint nullable (r : regex) : bool :=
  match r with
  | Eps | Star _ | Bol | Eol => true
  | Cls _ => false
  | Cat r1 r2 => nullable r1 && nullable r2
  | Or r1 r2 => nullable r1 || nullable r2
  | Grp _ r1 => nullable r1
  end.

(** [c] may be the first character of a word that [r] matches. *)
Fixpoint first_char (r : regex) (c : ascii) : bool :=
  match r with
  | Eps | Bol | Eol => false
  | Cls p => p c
  | Cat r1 r2 => first_char r1 c || (nullable r1 && first_char r2 c)
  | Or r1 r2 => first_char r1 c || first_char r2 c
  | Star r1 | Grp _ r1 => first_char r1 c
  end.

Lemma sem_first_char (r : regex) (w : list ascii) (g g' : groups) :
  sem r w g g' ->
  match w with
  | [] => nullable r = true
  | c :: _ => first_char r c = true
  end.
Proof.
  induction 1 as [| p c g Hc | r1 r2 w1 w2 g g1 g2 _ IH1 _ IH2
                  | r1 r2 w g g' _ IH | r1 r2 w g g' _ IH | r g
                  | r w1 w2 g g1 g2 _ IH1 _ IH2
                  | n r w g g' _ IH | |]; simpl; try reflexivity.
  - exact Hc.
  - destruct w1 as [| c w1]; simpl.
    + rewrite IH1. destruct w2 as [| c w2]; [exact IH2 |].
      rewrite IH2. apply orb_true_r.
    + now rewrite IH1.
  - destruct w; rewrite IH; reflexivity.
  - destruct w; rewrite IH; apply orb_true_r.
  - destruct w1 as [| c w1]; simpl; [| exact IH1].
    destruct w2; [reflexivity | exact IH2].
  - exact IH.
Qed.

(** The characters with which a text must start for a pattern of the
    exclusion filter to match: a digit, or one of c, a, p, h, w, @, the dot
    and the copyright sign. *)
Definition marker_start (c : ascii) : bool :=
  is_digit c
  || existsb (fun a => Ascii.eqb a c)
       ["c"; "a"; "p"; "h"; "w"; "@"; "."; ascii_of_N 169]%char.

Lemma exclusion_patterns_start (c : ascii) :
  marker_start c = false ->
  forallb (fun pattern => negb (nullable pattern)
                          && negb (first_char pattern c))
    exclusion_patterns = true.
Proof.
  destruct c as [[] [] [] [] [] [] [] []]; vm_compute; congruence.
Qed.

(** X9: the exclusion patterns are tried at the start of the text only: a
    text of 3 to 150 characters that, trimmed and lowercased, starts with
    a character other than a digit, c, a, p, h, w, @, the dot and the
    copyright sign is not excluded, whatever markers it contains. *)
Theorem unmarked_start_not_excluded (t : string) (p : Z) (c : ascii)
    (rest : string) :
  3 <= len (strip t) <= 150 ->
  lower (strip t) = String c rest ->
  marker_start c = false ->
  is_excluded_content t p = false.
Proof.
  intros Hlen Hlower Hstart. unfold is_excluded_content.
  replace (len (strip t) <? 3) with false by (symmetry; apply Z.ltb_ge; lia).
  replace (150 <? len (strip t)) with false
    by (symmetry; apply Z.ltb_ge; lia).
  simpl orb. cbv iota.
  pose proof (exclusion_patterns_start c Hstart) as Hpatterns.
  rewrite Hlower.
  induction exclusion_patterns as [| pattern patterns IH]; [reflexivity |].
  cbn [existsb forallb] in *.
  apply andb_true_iff in Hpatterns as [Hpattern Hpatterns].
  rewrite (IH Hpatterns), orb_false_r.
  destruct (re_match pattern (String c rest)) as [g |] eqn:Hmatch;
    [| reflexivity].
  exfalso. unfold re_match in Hmatch.
  apply rmatch_sound in Hmatch as (w & s' & g' & Hsplit & Hsem & _).
  apply sem_first_char in Hsem.
  apply andb_true_iff in Hpattern as [Hnull Hfirst].
  destruct w as [| c' w].
  - rewrite Hsem in Hnull. discriminate.
  - simpl in Hsplit. injection Hsplit as <- _.
    rewrite Hsem in Hfirst. discriminate.
Qed.

Lemma unmarked_start_not_excluded_witness :
  is_excluded_content "Visit www.example.com today" 1 = false.
Proof.
  apply (unmarked_start_not_excluded _ 1 "v"%char
           "isit www.example.com today").
  - vm_compute. split; discriminate.
  - vm_compute. reflexivity.
  - vm_compute. reflexivity.
Defined.

(** ** Exceptions and levels of the scorer *)

(** The pattern step: no pattern leaves confidence 0 and level 3; a pattern
    gives a confidence between 50 and 90 and level 1 or 2. *)
Lemma score_pattern_cases (t : string) :
  (fst (fst (detect_heading_patterns t)) = false /\ score_pattern t = (0, 3))
  \/ (fst (fst (detect_heading_patterns t)) = true
      /\ exists confidence level,
           score_pattern t = (confidence, level)
           /\ 50 <= confidence <= 90 /\ 1 <= level <= 2).
Proof.
  unfold score_pattern, detect_heading_patterns.
  destruct (numbered_rule (strip t)) as [level |] eqn:Hrule.
  - right. split; [reflexivity |]. exists 90, level.
    split; [reflexivity |].
    destruct (numbered_level_below_3 _ _ Hrule) as [-> | ->]; lia.
  - destruct (lettered_rule (strip t)).
    { right. split; [reflexivity |]. exists 80, 1. simpl.
      repeat split; lia. }
    destruct (roman_rule (strip t)).
    { right. split; [reflexivity |]. exists 70, 1. simpl.
      repeat split; lia. }
    destruct (colon_rule (strip t)).
    { right. split; [reflexivity |]. exists 60, 2. simpl.
      repeat split; lia. }
    destruct (allcaps_rule (strip t)).
    { right. split; [reflexivity |]. exists 50, 1. simpl.
      repeat split; lia. }
    left. now split.
Qed.

(** X10: the scorer returns [(False, None, 0)] for an excluded block,
    whatever the body size; for any other block it raises
    [ZeroDivisionError] exactly when the body font size is zero, and it
    raises nothing else. *)
Theorem scorer_exceptions (all_text_blocks : list TextBlock)
    (block : TextBlock) (font_analysis : FontAnalysis) :
  (is_excluded_content (text block) (page block) = true ->
   calculate_heading_likelihood all_text_blocks block font_analysis
   = Ok (false, None, 0))
  /\ (forall e,
        calculate_heading_likelihood all_text_blocks block font_analysis
        = Raise e
        <-> e = ZeroDivisionError
            /\ is_excluded_content (text block) (page block) = false
            /\ (body_font_size font_analysis == 0)%Q).
Proof.
  unfold calculate_heading_likelihood. split.
  - now intros ->.
  - intros e.
    destruct (is_excluded_content (text block) (page block)).
    { split; [discriminate | now intros (_ & H & _)]. }
    destruct (Qeq_bool (body_font_size font_analysis) 0) eqn:Hbody.
    + split.
      * intros H. injection H as <-. apply Qeq_bool_iff in Hbody.
        now repeat split.
      * now intros (-> & _ & _).
    + destruct (score_bold (is_bold block) _) as [total level].
      split; [discriminate |].
      intros (_ & _ & Hzero). apply Qeq_bool_iff in Hzero. congruence.
Qed.

(** X11: for a block that is not excluded the scorer returns a level, and
    the level follows the size and the weight of the font: a block at
    least twice the body size is H1, a bold block is H1 or H2, and a block
    without pattern that is neither bold nor 1.8 times the body size is
    H3. *)
Theorem scorer_levels (all_text_blocks : list TextBlock)
    (block : TextBlock) (font_analysis : FontAnalysis)
    (is_heading : bool) (level : option Level) (confidence : Z) :
  calculate_heading_likelihood all_text_blocks block font_analysis
  = Ok (is_heading, level, confidence) ->
  is_excluded_content (text block) (page block) = false ->
  let size_ratio := (font_size block / body_font_size font_analysis)%Q in
  exists l,
    level = Some l
    /\ (Qleb 2 size_ratio = true -> l = H1)
    /\ (is_bold block = true -> l <> H3)
    /\ (fst (fst (detect_heading_patterns (text block))) = false ->
        is_bold block = false -> Qleb (9 # 5) size_ratio = false -> l = H3).
Proof.
  unfold calculate_heading_likelihood. intros Hrun Hincluded.
  rewrite Hincluded in Hrun.
  destruct (Qeq_bool (body_font_size font_analysis) 0); [discriminate |].
  cbv zeta.
  set (size_ratio := (font_size block / body_font_size font_analysis)%Q)
    in *.
  assert (Htwo : Qleb 2 size_ratio = true ->
                 Qleb (3 # 2) size_ratio = true).
  { unfold Qleb. rewrite !Qle_bool_iff. intros H.
    apply Qle_trans with 2%Q; [discriminate | exact H]. }
  assert (Hlow : Qleb (9 # 5) size_ratio = false ->
                 Qleb 2 size_ratio = false).
  { unfold Qleb. intros H. destruct (Qle_bool 2 size_ratio) eqn:E;
      [| reflexivity].
    apply Qle_bool_iff in E.
    assert (Qle_bool (9 # 5) size_ratio = true) as H'; [| congruence].
    apply Qle_bool_iff. apply Qle_trans with 2%Q; [discriminate | exact E]. }
  destruct (score_pattern_cases (text block))
    as [[Hnone Hpattern] | [Hsome (c & l0 & Hpattern & Hc & Hl0)]];
    rewrite Hpattern in Hrun; unfold score_size, score_bold in Hrun;
    destruct (Qleb (3 # 2) size_ratio) eqn:H32;
    destruct (Qleb 2 size_ratio) eqn:H2;
    destruct (Qleb (9 # 5) size_ratio) eqn:H95;
    destruct (Qleb (6 # 5) size_ratio) eqn:H65;
    destruct (is_bold block) eqn:Hbold;
    try (specialize (Htwo eq_refl); discriminate);
    try (specialize (Hlow eq_refl); discriminate);
    injection Hrun as _ <- _;
    unfold level_map;
    repeat match goal with
           | |- context [Z.min ?a ?b] =>
               first [rewrite (Z.min_l a b) by lia
                     | rewrite (Z.min_r a b) by lia]
           | |- context [Z.max ?a ?b] =>
               first [rewrite (Z.max_l a b) by lia
                     | rewrite (Z.max_r a b) by lia]
           end;
    try (assert (l0 = 1 \/ l0 = 2) as [-> | ->] by lia);
    simpl; eexists; (split; [reflexivity |]);
    repeat split; intros; congruence.
Qed.

(** A block of the zero-size document. *)
Definition zero_size_block : TextBlock :=
  {| text := "Hello World"; font_size := 0; font_flags := 0;
     font_name := "Helvetica"; x_position := 72; y_position := 80;
     page := 1; is_bold := false; bbox := [72; 80; 272; 80]%Q;
     line_height := 0 |}.

Definition helvetica_0 : FontAnalysis :=
  {| body_font_size := 0; body_font_name := "Helvetica" |}.

Lemma scorer_exceptions_witness :
  calculate_heading_likelihood [zero_size_block] zero_size_block helvetica_0
  = Raise ZeroDivisionError.
Proof.
  apply (proj2 (scorer_exceptions [zero_size_block] zero_size_block
                  helvetica_0)).
  split; [reflexivity |]. split; [vm_compute; reflexivity | reflexivity].
Defined.

Lemma scorer_levels_witness :
  exists l, Some H1 = Some l /\ l <> H3.
Proof.
  destruct (scorer_levels [overview_block] overview_block helvetica_10
              true (Some H1) 165) as (l & Hl & _ & Hbold & _).
  - vm_compute. reflexivity.
  - vm_compute. reflexivity.
  - exists l. split; [exact Hl | now apply Hbold].
Defined.

(** ** Plain text *)

Lemma score_content_plain (all_text_blocks : list TextBlock) (t : string) :
  score_content all_text_blocks t false <= 50.
Proof.
  unfold score_content.
  destruct (any_in penalty_words (lower t));
    destruct (matches (re_search re_month_date (lower t)));
    destruct ((12 <? word_count t) && negb false);
    destruct (matches (re_match re_list_item (lower t)));
    destruct (matches (re_search re_chapter (lower t)));
    destruct (any_in structure_words (lower t));
    destruct (occurrences all_text_blocks t <=? 2); lia.
Qed.

(** X12: a block without a structural pattern that is not bold and is
    less than 1.2 times the body size is never accepted as a heading: its
    confidence is at most 15 + 10 + 30 + 20 = 75 and its level H3. *)
Theorem plain_text_is_no_heading (all_text_blocks : list TextBlock)
    (block : TextBlock) (font_analysis : FontAnalysis) :
  fst (fst (detect_heading_patterns (text block))) = false ->
  is_bold block = false ->
  Qleb (6 # 5) (font_size block / body_font_size font_analysis) = false ->
  Qeq_bool (body_font_size font_analysis) 0 = false ->
  exists level confidence,
    calculate_heading_likelihood all_text_blocks block font_analysis
    = Ok (false, level, confidence)
    /\ confidence <= 75
    /\ (level = None \/ level = Some H3).
Proof.
  intros Hnone Hbold Hsmall Hbody. unfold calculate_heading_likelihood.
  destruct (is_excluded_content (text block) (page block)).
  { exists None, 0. split; [reflexivity |]. split; [lia | now left]. }
  rewrite Hbody, Hnone, Hbold.
  destruct (score_pattern_cases (text block))
    as [[_ ->] | [Hsome _]]; [| congruence].
  assert (Hsmaller :
    Qleb (3 # 2) (font_size block / body_font_size font_analysis) = false).
  { unfold Qleb in *.
    destruct (Qle_bool (3 # 2)
                (font_size block / body_font_size font_analysis)) eqn:E;
      [| reflexivity].
    apply Qle_bool_iff in E.
    assert (Qle_bool (6 # 5)
              (font_size block / body_font_size font_analysis) = true)
      as H'; [| congruence].
    apply Qle_bool_iff.
    apply Qle_trans with (3 # 2)%Q; [discriminate | exact E]. }
  unfold score_size, score_bold. rewrite Hsmaller, Hsmall.
  pose proof (score_content_plain all_text_blocks (text block)) as Hcontent.
  set (content := score_content all_text_blocks (text block) false) in *.
  assert (Hfamily : 0 <= score_family block font_analysis <= 15).
  { unfold score_family. destruct (negb _); lia. }
  assert (Hposition : 0 <= score_position block <= 10).
  { unfold score_position. destruct (Qltb _ _); lia. }
  eexists _, _. split; [| split; [| now right]].
  - f_equal. f_equal. f_equal. apply Z.leb_gt. lia.
  - lia.
Qed.

(** A line of body text of the sample document. *)
Definition body_text_block : TextBlock :=
  {| text := "plain body text of the report"; font_size := 10;
     font_flags := 0; font_name := "Helvetica"; x_position := 72;
     y_position := 200; page := 1; is_bold := false;
     bbox := [72; 200; 272; 210]%Q; line_height := 10 |}.

Lemma plain_text_is_no_heading_witness :
  exists level confidence,
    calculate_heading_likelihood sample_blocks body_text_block helvetica_10
    = Ok (false, level, confidence).
Proof.
  destruct (plain_text_is_no_heading sample_blocks body_text_block
              helvetica_10) as (level & confidence & H & _).
  - vm_compute. reflexivity.
  - reflexivity.
  - vm_compute. reflexivity.
  - vm_compute. reflexivity.
  - exists level, confidence. exact H.
Defined.

(** ** The length of strings *)

Lemma length_str (l : list ascii) : String.length (str l) = length l.
Proof. induction l as [| c l IH]; simpl; [reflexivity | now rewrite IH]. Qed.

Lemma length_chars (s : string) : length (chars s) = String.length s.
Proof. induction s as [| c s IH]; simpl; [reflexivity | now rewrite IH]. Qed.

Lemma length_append (a b : string) :
  String.length (a +:+ b) = (String.length a + String.length b)%nat.
Proof. induction a as [| c a IH]; simpl; [reflexivity | now rewrite IH]. Qed.

(** ** The title *)

Lemma collapse_spaces_nonempty (l : list ascii) :
  l <> [] -> collapse_spaces false l <> [].
Proof.
  destruct l as [| c l]; [congruence |]. intros _. simpl.
  destruct (is_space c); discriminate.
Qed.

Lemma collapse_spaces_length (l : list ascii) (inspace : bool) :
  (length (collapse_spaces inspace l) <= length l)%nat.
Proof.
  revert inspace. induction l as [| c l IH]; intros inspace; simpl; [lia |].
  pose proof (IH true). pose proof (IH false).
  destruct (is_space c); [destruct inspace |]; simpl; lia.
Qed.

(** A cleaned title is not empty and has at most 103 characters. *)
Lemma clean_title_length (t : string) :
  t <> "" -> 1 <= len (clean_title t) <= 103.
Proof.
  intros Ht. unfold clean_title.
  assert (Hsub : 1 <= len (sub_spaces t)).
  { unfold len, sub_spaces. rewrite length_str.
    assert (collapse_spaces false (chars t) <> []) as Hne.
    { apply collapse_spaces_nonempty. destruct t; [congruence | discriminate]. }
    destruct (collapse_spaces false (chars t)); [congruence | simpl; lia]. }
  destruct (100 <? len (sub_spaces t)) eqn:Hlong.
  - apply Z.ltb_lt in Hlong. unfold len in *.
    rewrite length_append. unfold slice_to. rewrite length_str.
    rewrite length_take_le by (rewrite length_chars; lia).
    simpl String.length. lia.
  - apply Z.ltb_ge in Hlong. lia.
Qed.

Lemma first_substantial_nonempty (blocks : list TextBlock) :
  first_substantial blocks <> "".
Proof.
  induction blocks as [| b blocks IH]; [discriminate |].
  cbn [first_substantial].
  destruct ((10 <? len (strip (text b)))
            && negb (startswith (lower (strip (text b))) "copyright")
            && negb (matches (re_match re_leading_digit (strip (text b)))))
    eqn:Hok; [| exact IH].
  apply andb_true_iff in Hok as [Hok _].
  apply andb_true_iff in Hok as [Hlen _]. apply Z.ltb_lt in Hlen.
  intros Hempty. rewrite Hempty in Hlen. unfold len in Hlen. simpl in Hlen. lia.
Qed.

Lemma candidate_text_nonempty (b : TextBlock) :
  is_title_candidate b = true -> strip (text b) <> "".
Proof.
  unfold is_title_candidate. intros H.
  repeat (apply andb_true_iff in H as [H _]).
  apply Z.ltb_lt in H. intros Hempty. rewrite Hempty in H. unfold len in H. simpl in H. lia.
Qed.

(** What the loop over the top candidates returns. *)
Lemma first_meaningful_some (candidates : list TextBlock) (t : string) :
  first_meaningful candidates = Some t ->
  exists c, c ∈ candidates /\ t = clean_title (strip (text c)).
Proof.
  induction candidates as [| c candidates IH]; [discriminate |].
  cbn [first_meaningful].
  destruct ((2 <=? word_count (strip (text c)))
            && negb (existsb (String.eqb (lower (strip (text c))))
                       generic_titles)).
  - intros H. injection H as <-. exists c.
    split; [apply list_elem_of_here | reflexivity].
  - intros H. destruct (IH H) as (c' & Hc' & Ht).
    exists c'. split; [now apply list_elem_of_further | exact Ht].
Qed.

Lemma elem_of_List_filter {A : Type} (f : A -> bool) (l : list A) (x : A) :
  x ∈ List.filter f l <-> x ∈ l /\ f x = true.
Proof.
  rewrite !list_elem_of_In. apply filter_In.
Qed.

(** The candidates of a list of blocks, in the order of the sort. *)
Definition sorted_candidates (text_blocks : list TextBlock)
    : list TextBlock :=
  sort_by QQ_ltb (fun x => ((- font_size x)%Q, y_position x))
    (List.filter is_title_candidate
       (List.filter (fun b => page b =? 1) text_blocks)).

Lemma sorted_candidates_elem (text_blocks : list TextBlock) (c : TextBlock) :
  c ∈ sorted_candidates text_blocks <->
  c ∈ text_blocks /\ page c = 1 /\ is_title_candidate c = true.
Proof.
  unfold sorted_candidates.
  rewrite (sort_by_perm QQ_ltb _ _).
  rewrite !elem_of_List_filter, Z.eqb_eq. tauto.
Qed.

(** The three ways [extract_title] ends. *)
Lemma extract_title_cases (text_blocks : list TextBlock) :
  (List.filter (fun b => page b =? 1) text_blocks = []
   /\ extract_title text_blocks = "Untitled Document")
  \/ (sorted_candidates text_blocks = []
      /\ extract_title text_blocks
         = first_substantial
             (List.filter (fun b => page b =? 1) text_blocks))
  \/ (exists best rest,
        sorted_candidates text_blocks = best :: rest
        /\ extract_title text_blocks
           = match first_meaningful (take 3 (best :: rest)) with
             | Some t => t
             | None => clean_title (strip (text best))
             end).
Proof.
  unfold extract_title, sorted_candidates.
  destruct (List.filter (fun b => page b =? 1) text_blocks)
    as [| b first_page] eqn:Hfirst; [left; now split |].
  right.
  destruct (List.filter is_title_candidate (b :: first_page))
    as [| c candidates] eqn:Hcands; [left; now split |].
  right.
  destruct (sort_by QQ_ltb (fun x => ((- font_size x)%Q, y_position x))
              (c :: candidates)) as [| best rest] eqn:Hsorted.
  - exfalso.
    assert (c ∈ @nil TextBlock) as Hc; [| now apply elem_of_nil in Hc].
    rewrite <- Hsorted. rewrite (sort_by_perm QQ_ltb _ _).
    apply list_elem_of_here.
  - exists best, rest. split; [reflexivity |].
    destruct (first_meaningful (take 3 (best :: rest))); reflexivity.
Qed.

Lemma extract_title_nonempty (text_blocks : list TextBlock) :
  extract_title text_blocks <> "".
Proof.
  destruct (extract_title_cases text_blocks)
    as [[_ ->] | [[_ ->] | (best & rest & Hsorted & ->)]].
  - discriminate.
  - apply first_substantial_nonempty.
  - assert (Hclean : forall c, c ∈ best :: rest ->
              clean_title (strip (text c)) <> "").
    { intros c Hc. rewrite <- Hsorted in Hc.
      apply sorted_candidates_elem in Hc as (_ & _ & Hc).
      apply candidate_text_nonempty in Hc.
      pose proof (clean_title_length _ Hc) as Hlen.
      intros Hempty. rewrite Hempty in Hlen. unfold len in Hlen. simpl in Hlen. lia. }
    destruct (first_meaningful (take 3 (best :: rest))) as [t |] eqn:Hloop.
    + destruct (first_meaningful_some _ _ Hloop) as (c & Hc & ->).
      apply Hclean. apply elem_of_take in Hc as (i & Hi & _).
      eapply list_elem_of_lookup_2. exact Hi.
    + apply Hclean. apply list_elem_of_here.
Qed.

(** X13: [extract_title] never returns the empty string. *)
Theorem title_never_empty (text_blocks : list TextBlock) :
  extract_title text_blocks <> "".
Proof. apply extract_title_nonempty. Qed.

(** X14: when some block of page 1 is a title candidate, the title is the
    cleaned text of such a candidate and has at most 103 characters. *)
Theorem title_from_candidate (text_blocks : list TextBlock) (c : TextBlock) :
  c ∈ text_blocks -> page c = 1 -> is_title_candidate c = true ->
  len (extract_title text_blocks) <= 103
  /\ exists b, b ∈ text_blocks /\ page b = 1 /\ is_title_candidate b = true
               /\ extract_title text_blocks = clean_title (strip (text b)).
Proof.
  intros Hc Hpage Hcand.
  assert (Hin : c ∈ sorted_candidates text_blocks).
  { apply sorted_candidates_elem. now repeat split. }
  assert (Hfrom : exists b, b ∈ sorted_candidates text_blocks
            /\ extract_title text_blocks = clean_title (strip (text b))).
  { destruct (extract_title_cases text_blocks)
      as [[Hnone _] | [[Hnone _] | (best & rest & Hsorted & ->)]].
    - exfalso.
      assert (c ∈ List.filter (fun b => page b =? 1) text_blocks) as H.
      { apply elem_of_List_filter. split; [exact Hc | now apply Z.eqb_eq]. }
      rewrite Hnone in H. now apply elem_of_nil in H.
    - rewrite Hnone in Hin. now apply elem_of_nil in Hin.
    - rewrite Hsorted.
      destruct (first_meaningful (take 3 (best :: rest))) as [t |] eqn:Hloop.
      + destruct (first_meaningful_some _ _ Hloop) as (b & Hb & ->).
        exists b. split; [| reflexivity].
        apply elem_of_take in Hb as (i & Hi & _).
        eapply list_elem_of_lookup_2. exact Hi.
      + exists best. split; [apply list_elem_of_here | reflexivity]. }
  destruct Hfrom as (b & Hb & Htitle).
  apply sorted_candidates_elem in Hb as (Hb & Hbpage & Hbcand).
  split.
  - rewrite Htitle.
    apply (clean_title_length _ (candidate_text_nonempty b Hbcand)).
  - exists b. now repeat split.
Qed.

(** The title block of the sample document. *)
Definition report_title_block : TextBlock :=
  {| text := "Annual Engineering Report"; font_size := 24; font_flags := 16;
     font_name := "Helvetica"; x_position := 72; y_position := 80;
     page := 1; is_bold := true; bbox := [72; 80; 272; 104]%Q;
     line_height := 24 |}.

Lemma title_from_candidate_witness :
  len (extract_title sample_blocks) <= 103.
Proof.
  apply (title_from_candidate sample_blocks report_title_block).
  - vm_compute. apply list_elem_of_here.
  - reflexivity.
  - vm_compute. reflexivity.
Defined.

(** ** The largest candidate *)

(** The order on the keys [(-font_size, y_position)]. *)
Definition QQ_le (a b : Q * Q) : Prop :=
  (fst a < fst b)%Q \/ ((fst a == fst b)%Q /\ (snd a <= snd b)%Q).

Lemma QQ_ltb_false (a b : Q * Q) : QQ_ltb b a = false <-> QQ_le a b.
Proof.
  unfold QQ_ltb, QQ_le. destruct (Qeq_bool (fst b) (fst a)) eqn:E; simpl.
  - apply Qeq_bool_iff in E. rewrite Qltb_false. split.
    + intros H. right. split; [now symmetry | exact H].
    + intros [H | [_ H]]; [| exact H].
      exfalso. rewrite E in H. now apply (Qlt_irrefl (fst a)).
  - apply Qeq_bool_neq in E. rewrite Qltb_false. split.
    + intros H. left. apply Qle_lteq in H as [H | H]; [exact H |].
      exfalso. apply E. now symmetry.
    + intros [H | [H _]]; [now apply Qlt_le_weak |].
      exfalso. apply E. now symmetry.
Qed.

Lemma QQ_ltb_asym (a b : Q * Q) : QQ_ltb a b = true -> QQ_ltb b a = false.
Proof.
  intros H. apply QQ_ltb_false. revert H. unfold QQ_ltb, QQ_le.
  destruct (Qeq_bool (fst a) (fst b)) eqn:E; simpl.
  - apply Qeq_bool_iff in E. rewrite Qltb_true. intros H.
    right. split; [exact E | now apply Qlt_le_weak].
  - rewrite Qltb_true. intros H. now left.
Qed.

Lemma QQ_le_trans (a b c : Q * Q) : QQ_le a b -> QQ_le b c -> QQ_le a c.
Proof.
  unfold QQ_le. intros [Hab | [Hab Hab']] [Hbc | [Hbc Hbc']].
  - left. now apply Qlt_trans with (fst b).
  - left. now rewrite <- Hbc.
  - left. now rewrite Hab.
  - right. split; [now rewrite Hab |]. now apply Qle_trans with (snd b).
Qed.

Lemma QQ_ltb_cotrans (a b c : Q * Q) :
  QQ_ltb b a = false -> QQ_ltb c b = false -> QQ_ltb c a = false.
Proof.
  rewrite !QQ_ltb_false. apply QQ_le_trans.
Qed.

(** A text that the loop over the top candidates accepts. *)
Definition meaningful (t : string) : bool :=
  (2 <=? word_count t)
  && negb (existsb (String.eqb (lower t)) generic_titles).

(** X15: among the title candidates of page 1 there is one of the largest
    font size, topmost among the candidates of that size, that is tried
    first: when its text has two words or more and is not a generic title,
    it is the title. *)
Theorem largest_candidate_first (text_blocks : list TextBlock)
    (c : TextBlock) :
  c ∈ text_blocks -> page c = 1 -> is_title_candidate c = true ->
  exists best,
    best ∈ text_blocks /\ page best = 1 /\ is_title_candidate best = true
    /\ (forall b, b ∈ text_blocks -> page b = 1 ->
                  is_title_candidate b = true ->
                  (font_size b < font_size best)%Q
                  \/ ((font_size b == font_size best)%Q
                      /\ (y_position best <= y_position b)%Q))
    /\ (meaningful (strip (text best)) = true ->
        extract_title text_blocks = clean_title (strip (text best))).
Proof.
  intros Hc Hpage Hcand.
  assert (Hin : c ∈ sorted_candidates text_blocks).
  { apply sorted_candidates_elem. now repeat split. }
  destruct (extract_title_cases text_blocks)
    as [[Hnone _] | [[Hnone _] | (best & rest & Hsorted & Htitle)]].
  - exfalso.
    assert (c ∈ List.filter (fun b => page b =? 1) text_blocks) as H.
    { apply elem_of_List_filter. split; [exact Hc | now apply Z.eqb_eq]. }
    rewrite Hnone in H. now apply elem_of_nil in H.
  - rewrite Hnone in Hin. now apply elem_of_nil in Hin.
  - assert (Hbest : best ∈ sorted_candidates text_blocks).
    { rewrite Hsorted. apply list_elem_of_here. }
    apply sorted_candidates_elem in Hbest as (Hbest & Hbpage & Hbcand).
    exists best. repeat split; try assumption.
    + intros b Hb Hbp Hbc.
      assert (Hbin : b ∈ best :: rest).
      { rewrite <- Hsorted. apply sorted_candidates_elem. now repeat split. }
      pose proof (sort_by_sorted QQ_ltb
                    (fun x => ((- font_size x)%Q, y_position x))
                    QQ_ltb_asym QQ_ltb_cotrans
                    (List.filter is_title_candidate
                       (List.filter (fun b => page b =? 1) text_blocks)))
        as Hss.
      fold (sorted_candidates text_blocks) in Hss. rewrite Hsorted in Hss.
      apply elem_of_cons in Hbin as [-> | Hbin].
      * right. split; [reflexivity | apply Qle_refl].
      * apply StronglySorted_inv in Hss as [_ Hall].
        rewrite Forall_forall in Hall. specialize (Hall b Hbin).
        unfold not_after in Hall. apply QQ_ltb_false in Hall.
        unfold QQ_le in Hall. simpl in Hall.
        destruct Hall as [Hlt | [Heq Hle]].
        { left. now apply Qopp_lt_compat in Hlt;
            rewrite !Qopp_involutive in Hlt. }
        right. split; [| exact Hle].
        apply Qopp_comp in Heq. rewrite !Qopp_involutive in Heq.
        now symmetry.
    + intros Hmeaning. rewrite Htitle. cbn [take first_meaningful].
      unfold meaningful in Hmeaning. now rewrite Hmeaning.
Qed.

Lemma largest_candidate_first_witness :
  exists best, best ∈ sample_blocks /\ page best = 1.
Proof.
  destruct (largest_candidate_first sample_blocks report_title_block)
    as (best & Hbest & Hpage & _).
  - vm_compute. apply list_elem_of_here.
  - reflexivity.
  - vm_compute. reflexivity.
  - exists best. now split.
Defined.

Lemma sample_title : extract_title sample_blocks = "Annual Engineering Report".
Proof. vm_compute. reflexivity. Qed.

(** ** The entries of an outline *)

Lemma not_excluded_length (t : string) (p : Z) :
  is_excluded_content t p = false -> 3 <= len (strip t) <= 150.
Proof.
  unfold is_excluded_content.
  destruct ((len (strip t) <? 3) || (150 <? len (strip t))) eqn:Hlen;
    [discriminate |].
  intros _. apply orb_false_iff in Hlen as [Hlow Hhigh].
  apply Z.ltb_ge in Hlow. apply Z.ltb_ge in Hhigh. lia.
Qed.

Lemma accepted_block (all_text_blocks : list TextBlock) (b : TextBlock)
    (font_analysis : FontAnalysis) (level : option Level) (confidence : Z) :
  calculate_heading_likelihood all_text_blocks b font_analysis
  = Ok (true, level, confidence) ->
  is_excluded_content (text b) (page b) = false
  /\ 80 <= confidence
  /\ exists l, level = Some l.
Proof.
  unfold calculate_heading_likelihood.
  destruct (is_excluded_content (text b) (page b)); [discriminate |].
  destruct (Qeq_bool (body_font_size font_analysis) 0); [discriminate |].
  destruct (score_bold (is_bold b) _) as [total suggested_level].
  intros H. injection H as Hheading <- <-.
  apply Z.leb_le in Hheading. split; [reflexivity |].
  split; [exact Hheading | eauto].
Qed.

(** X16: every entry of an outline that [extract_outline] returns has a
    confidence of at least 80, a level, a page between 1 and the number of
    pages, and a trimmed text of 3 to 150 characters that the exclusion
    filter lets pass. *)
Theorem outline_entries_well_formed (doc : Doc) (res : OutlineResult)
    (h : Heading) :
  extract_outline doc = Ok res -> h ∈ outline res ->
  80 <= h_confidence h
  /\ (exists l, h_level h = Some l)
  /\ 1 <= h_page h <= Z.of_nat (length doc)
  /\ strip (h_text h) = h_text h
  /\ 3 <= len (h_text h) <= 150
  /\ is_excluded_content (h_text h) (h_page h) = false.
Proof.
  intros Hrun Hh.
  destruct (extract_outline_inv doc res Hrun)
    as (text_blocks & Hblocks & [[_ Hout] | Hfull]).
  { rewrite Hout in Hh. now apply elem_of_nil in Hh. }
  destruct Hfull as (font_analysis & headings & _ & Hcollect & Hout).
  destruct (collect_headings_outline _ _ _ Hcollect) as (_ & Hkept & _).
  rewrite Hout in Hh. rewrite (sort_by_perm ZQ_ltb _ headings) in Hh.
  destruct (Hkept h Hh)
    as (l1 & b & l2 & level & confidence & Hsplit & Hscore & -> & _).
  destruct (accepted_block _ _ _ _ _ Hscore) as (Hincluded & Hconf & Hlevel).
  assert (Hb : b ∈ text_blocks).
  { rewrite Hsplit. apply elem_of_app. right. apply list_elem_of_here. }
  unfold extract_text_blocks in Hblocks.
  destruct (pages_blocks_produced doc 0 text_blocks Hblocks) as [Hall _].
  rewrite Forall_forall in Hall.
  destruct (Hall b Hb) as (p & Hp & Hpage & _).
  unfold heading_of. simpl.
  split; [exact Hconf |]. split; [exact Hlevel |].
  split; [lia |]. split; [apply strip_idempotent |].
  split.
  - now apply (not_excluded_length (text b) (page b)).
  - unfold is_excluded_content in *. now rewrite strip_idempotent.
Qed.

Definition sample_heading : Heading :=
  Eval vm_compute in
    match outline sample_outline with
    | _ :: h :: _ => h
    | _ => {| h_text := ""; h_page := 0; h_level := None; h_confidence := 0;
              h_font_size := 0%Q |}
    end.

Lemma outline_entries_well_formed_witness :
  h_text sample_heading = "1.2 System Overview"
  /\ 80 <= h_confidence sample_heading
  /\ 1 <= h_page sample_heading <= 2.
Proof.
  split; [reflexivity |].
  assert (Hh : sample_heading ∈ outline sample_outline).
  { assert (H : exists h0 rest,
               outline sample_outline = h0 :: sample_heading :: rest)
      by (do 2 eexists; vm_compute; reflexivity).
    destruct H as (h0 & rest & ->).
    apply list_elem_of_further, list_elem_of_here. }
  destruct (outline_entries_well_formed sample_doc sample_outline
              sample_heading) as (Hconf & _ & Hpage & _);
    [vm_compute; reflexivity | exact Hh |].
  split; [exact Hconf | exact Hpage].
Defined.

(** ** The result of an extraction *)

Lemma collect_headings_length (all_text_blocks : list TextBlock)
    (font_analysis : FontAnalysis) (blocks : list TextBlock) :
  forall headings seen_texts out,
    collect_headings all_text_blocks font_analysis blocks headings seen_texts
    = Ok out ->
    (length out <= length headings + length blocks)%nat.
Proof.
  induction blocks as [| b rest IH]; intros headings seen_texts out Hrun;
    simpl in Hrun.
  - injection Hrun as <-. lia.
  - destruct ((len (strip (text b)) =? 0)
              || bool_decide (block_key b ∈ seen_texts)).
    { apply IH in Hrun. simpl. lia. }
    destruct (calculate_heading_likelihood all_text_blocks b font_analysis)
      as [[[is_heading level] confidence] | e]; [| discriminate].
    simpl in Hrun. destruct is_heading; apply IH in Hrun.
    + rewrite length_app in Hrun. simpl in *. lia.
    + simpl. lia.
Qed.

(** X17: a result of [extract_outline] carries the number of pages of the
    document and a non-empty title, the title that [extract_title] finds
    when there are text blocks, and it has at most one entry for each text
    block. *)
Theorem outline_result_shape (doc : Doc) (res : OutlineResult) :
  extract_outline doc = Ok res ->
  metadata res = Some {| page_count := Z.of_nat (length doc) |}
  /\ title res <> ""
  /\ exists text_blocks,
       extract_text_blocks doc = Ok text_blocks
       /\ (length (outline res) <= length text_blocks)%nat
       /\ (text_blocks <> [] -> title res = extract_title text_blocks).
Proof.
  unfold extract_outline, mbind, result_bind. intros Hrun.
  destruct (extract_text_blocks doc) as [text_blocks | e]; [| discriminate].
  destruct text_blocks as [| b rest].
  - injection Hrun as <-. simpl. split; [reflexivity |].
    split; [discriminate |]. exists []. split; [reflexivity |].
    split; [lia | congruence].
  - destruct (analyze_fonts (b :: rest)) as [font_analysis | e];
      [| discriminate].
    destruct (collect_headings (b :: rest) font_analysis (b :: rest) [] ∅)
      as [headings | e] eqn:Hcollect; [| discriminate].
    injection Hrun as <-. cbn [metadata title outline].
    split; [reflexivity |]. split; [apply extract_title_nonempty |].
    exists (b :: rest). split; [reflexivity |]. split; [| reflexivity].
    rewrite (Permutation_length (sort_by_perm ZQ_ltb _ headings)).
    apply collect_headings_length in Hcollect. simpl in Hcollect. exact Hcollect.
Qed.

Lemma outline_result_shape_witness :
  metadata sample_outline = Some {| page_count := 2 |}.
Proof.
  apply (outline_result_shape sample_doc sample_outline).
  vm_compute. reflexivity.
Defined.

Lemma collect_headings_none (all_text_blocks : list TextBlock)
    (font_analysis : FontAnalysis) (blocks : list TextBlock) :
  Qeq_bool (body_font_size font_analysis) 0 = false ->
  (forall b, b ∈ blocks -> ~ accepted all_text_blocks font_analysis b) ->
  forall headings seen_texts,
    collect_headings all_text_blocks font_analysis blocks headings seen_texts
    = Ok headings.
Proof.
  intros Hbody. induction blocks as [| b rest IH];
    intros Hnone headings seen_texts; [reflexivity |].
  assert (Hrest : forall b', b' ∈ rest ->
            ~ accepted all_text_blocks font_analysis b').
  { intros b' Hb'. apply Hnone. now apply list_elem_of_further. }
  simpl.
  destruct ((len (strip (text b)) =? 0)
            || bool_decide (block_key b ∈ seen_texts)); [now apply IH |].
  destruct (calculate_heading_likelihood_returns all_text_blocks b
              font_analysis Hbody) as ([[is_heading level] confidence] & Hb).
  rewrite Hb. simpl. destruct is_heading; [| now apply IH].
  exfalso. apply (Hnone b); [apply list_elem_of_here |].
  now exists level, confidence.
Qed.

(** X18: when there are text blocks, the body font size is not 0 and the
    scorer accepts none of the blocks, [extract_outline] returns a result
    with the title of the document, an empty outline and the number of
    pages. *)
Theorem outline_without_headings (doc : Doc) (text_blocks : list TextBlock)
    (font_analysis : FontAnalysis) :
  extract_text_blocks doc = Ok text_blocks ->
  text_blocks <> [] ->
  analyze_fonts text_blocks = Ok font_analysis ->
  Qeq_bool (body_font_size font_analysis) 0 = false ->
  (forall b, b ∈ text_blocks -> ~ accepted text_blocks font_analysis b) ->
  extract_outline doc
  = Ok {| title := extract_title text_blocks; outline := [];
          metadata := Some {| page_count := Z.of_nat (length doc) |} |}.
Proof.
  intros Hblocks Hnonempty Hfonts Hbody Hnone.
  unfold extract_outline, mbind, result_bind. rewrite Hblocks.
  destruct text_blocks as [| b rest]; [congruence |].
  rewrite Hfonts.
  now rewrite (collect_headings_none _ _ _ Hbody Hnone).
Qed.

(** A page with two lines of body text. *)
Definition plain_doc : Doc :=
  [ [ sample_block
        [ sample_span "nothing but ordinary text" 10 0 120 80;
          sample_span "and a second ordinary line" 10 0 120 100 ] ] ].

Lemma outline_without_headings_witness :
  exists t, extract_outline plain_doc
            = Ok {| title := t; outline := [];
                    metadata := Some {| page_count := 1 |} |}.
Proof.
  eexists.
  apply (outline_without_headings plain_doc
           (match extract_text_blocks plain_doc with
            | Ok l => l | Raise _ => [] end) helvetica_10).
  - vm_compute. reflexivity.
  - vm_compute. discriminate.
  - vm_compute. reflexivity.
  - vm_compute. reflexivity.
  - intros b Hb (level & confidence & Hacc). vm_compute in Hb.
    apply elem_of_cons in Hb as [-> | Hb]; [vm_compute in Hacc; discriminate |].
    apply list_elem_of_singleton in Hb. subst b.
    vm_compute in Hacc. discriminate.
Defined.

(** * The batch processor, [pdf_processor.py] *)

(** ** One document *)

(** An outline entry without its "font_size" and "confidence". *)
Record CleanEntry : Type := {
  c_text : string;
  c_page : Z;
  c_level : option Level
}.

(** The dictionary that is validated and written; [result.get("metadata",
    {})] is [None] for the empty dictionary. *)
Record CleanResult : Type := {
  cr_title : string;
  cr_outline : list CleanEntry;
  cr_metadata : option Metadata
}.

(** What [process_one_pdf] returns: status "success" or status "error". *)
Inductive WorkerResult : Type :=
| Success (file : string) (outline : list CleanEntry)
    (metadata : option Metadata)
| Failure (file : string) (error : string).

(** The outcome of [validate(instance, schema)]. *)
Inductive Validation : Type :=
| Valid
| Invalid (message : string).

Definition clean_entry (h : Heading) : CleanEntry :=
  {| c_text := h_text h; c_page := h_page h; c_level := h_level h |}.

(** [process_one_pdf(pdf_path, output_dir)].  [schema] is [OUTPUT_SCHEMA]
    with the validation against it, [None] when the schema file was not
    found; [write] is the writing of the JSON file, which returns the
    message of the exception it raised, if any; [file] is [str(pdf_path)]
    and [opened] what opening that file gives. *)
Definition process_one_pdf (schema : option (CleanResult -> Validation))
    (write : CleanResult -> option string) (file : string)
    (opened : result Doc) : WorkerResult :=
  let result := extract_pdf_outline opened in
  let clean_outline := map clean_entry (outline result) in
  let clean_result :=
    {| cr_title := title result; cr_outline := clean_outline;
       cr_metadata := metadata result |} in
  let validation :=
    match schema with
    | Some validate => validate clean_result
    | None => Valid
    end in
  match validation with
  | Invalid ve => Failure file ("Schema validation failed: " +:+ ve)
  | Valid =>
      match write clean_result with
      | Some e => Failure file e
      | None => Success file clean_outline (metadata result)
      end
  end.

(** The dictionary made from the error dictionary of the extractor. *)
Definition clean_error_result : CleanResult :=
  {| cr_title := "Error"; cr_outline := []; cr_metadata := None |}.

(** X19: a document whose extraction raised is not reported as an error:
    without a schema, [process_one_pdf] writes the dictionary with the
    title "Error" and, when the write succeeds, returns status "success"
    with an empty outline and no metadata. *)
Theorem failed_extraction_reported_as_success
    (write : CleanResult -> option string) (file : string)
    (opened : result Doc) (e : exn) :
  (doc ← opened; extract_outline doc) = Raise e ->
  write clean_error_result = None ->
  process_one_pdf None write file opened = Success file [] None.
Proof.
  intros Hraise Hwrite.
  unfold process_one_pdf, extract_pdf_outline. rewrite Hraise.
  unfold error_result. simpl.
  fold clean_error_result. now rewrite Hwrite.
Qed.

Lemma failed_extraction_reported_as_success_witness :
  process_one_pdf None (fun _ => None) "zero.pdf" (Ok zero_size_doc)
  = Success "zero.pdf" [] None.
Proof.
  apply (failed_extraction_reported_as_success (fun _ => None) "zero.pdf"
           (Ok zero_size_doc) ZeroDivisionError).
  - vm_compute. reflexivity.
  - reflexivity.
Defined.

(** X20: when [process_one_pdf] returns status "success", the outline it
    returns has the entries of the extracted outline, in the same order,
    with their text, page and level, and no two of them have the same
    lowercased text and page. *)
Theorem reported_outline (schema : option (CleanResult -> Validation))
    (write : CleanResult -> option string) (file : string) (doc : Doc)
    (file' : string) (entries : list CleanEntry)
    (meta : option Metadata) :
  process_one_pdf schema write file (Ok doc) = Success file' entries meta ->
  file' = file
  /\ entries = map clean_entry (outline (extract_pdf_outline (Ok doc)))
  /\ NoDup (map (fun c => (lower (c_text c), c_page c)) entries)
  /\ (forall res, extract_outline doc = Ok res ->
        meta = Some {| page_count := Z.of_nat (length doc) |}).
Proof.
  unfold process_one_pdf. intros Hrun.
  destruct (match schema with
            | Some validate => validate _
            | None => Valid
            end); [| discriminate].
  destruct (write _); [discriminate |].
  injection Hrun as <- <- <-.
  split; [reflexivity |]. split; [reflexivity |].
  unfold extract_pdf_outline, mbind, result_bind.
  destruct (extract_outline doc) as [res |] eqn:Hres.
  - split.
    + destruct (extract_outline_inv doc res Hres)
        as (text_blocks & _ & [[_ Hout] | Hfull]).
      { rewrite Hout. apply NoDup_nil_2. }
      destruct Hfull as (font_analysis & headings & _ & Hcollect & Hout).
      destruct (collect_headings_outline _ _ _ Hcollect) as (Hnodup & _ & _).
      rewrite Hout, map_map.
      change (NoDup (map heading_key
                (sort_by ZQ_ltb (sort_key (record_positions text_blocks ∅))
                   headings))).
      now rewrite (sort_by_perm ZQ_ltb _ headings).
    + intros res' Hres'. injection Hres' as <-.
      unfold extract_outline, mbind, result_bind in Hres.
      destruct (extract_text_blocks doc) as [text_blocks | e];
        [| discriminate].
      destruct text_blocks as [| b rest].
      * now injection Hres as <-.
      * destruct (analyze_fonts (b :: rest)); [| discriminate].
        destruct (collect_headings _ _ _ _ _); [| discriminate].
        now injection Hres as <-.
  - split; [apply NoDup_nil_2 | discriminate].
Qed.

Lemma reported_outline_witness :
  exists entries,
    process_one_pdf None (fun _ => None) "sample.pdf" (Ok sample_doc)
    = Success "sample.pdf" entries (Some {| page_count := 2 |})
    /\ NoDup (map (fun c => (lower (c_text c), c_page c)) entries).
Proof.
  eexists. split; [vm_compute; reflexivity |].
  eapply (reported_outline None (fun _ => None) "sample.pdf" sample_doc).
  vm_compute. reflexivity.
Defined.

(** ** The statistics of a batch *)

(** The counters of [stats]. *)
Record Stats : Type := {
  total_files : Z;
  successful : Z;
  failed : Z;
  total_entries : Z
}.

(** How the handling of one finished future goes: [future.result()]
    raises; or it returns a result that is appended to [results], after
    which writing the fallback or the log file raises; or it returns a
    result and the body of the [try] runs to its end. *)
Inductive Completion : Type :=
| Crashed
| LogFailed (r : WorkerResult)
| Completed (r : WorkerResult).

(** [len(result.get("outline", []))] *)
Definition reported_entries (r : WorkerResult) : Z :=
  match r with
  | Success _ entries _ => Z.of_nat (length entries)
  | Failure _ _ => 0
  end.

(** [result["status"] == "success"] *)
Definition is_success (r : WorkerResult) : bool :=
  match r with
  | Success _ _ _ => true
  | Failure _ _ => false
  end.

(** One round of the loop over the finished futures, on [results] and
    [stats]. *)
Definition handle_completion (st : list WorkerResult * Stats) (c : Completion)
    : list WorkerResult * Stats :=
  let '(results, stats) := st in
  match c with
  | Crashed =>
      (results,
       {| total_files := total_files stats; successful := successful stats;
          failed := failed stats + 1;
          total_entries := total_entries stats |})
  | LogFailed r =>
      (results ++ [r],
       {| total_files := total_files stats; successful := successful stats;
          failed := failed stats + 1;
          total_entries := total_entries stats |})
  | Completed r =>
      (results ++ [r],
       if is_success r then
         {| total_files := total_files stats;
            successful := successful stats + 1;
            failed := failed stats;
            total_entries := total_entries stats + reported_entries r |}
       else
         {| total_files := total_files stats;
            successful := successful stats + 1;
            failed := failed stats + 1;
            total_entries := total_entries stats + reported_entries r |})
  end.

(** The loop of [process_pdfs] over the futures in the order in which they
    finish, from the initial [results] and [stats]. *)
Definition handle_completions (completions : list Completion)
    : list WorkerResult * Stats :=
  fold_left handle_completion completions
    ([], {| total_files := Z.of_nat (length completions); successful := 0;
            failed := 0; total_entries := 0 |}).

Definition completed (c : Completion) : bool :=
  match c with
  | Completed _ => true
  | _ => false
  end.

Definition counted_failed (c : Completion) : bool :=
  match c with
  | Completed r => negb (is_success r)
  | _ => true
  end.

Definition counted_entries (c : Completion) : Z :=
  match c with
  | Completed r => reported_entries r
  | _ => 0
  end.

Definition count {A : Type} (f : A -> bool) (l : list A) : Z :=
  Z.of_nat (length (List.filter f l)).

Fixpoint sum_of {A : Type} (f : A -> Z) (l : list A) : Z :=
  match l with
  | [] => 0
  | x :: l' => f x + sum_of f l'
  end.

Lemma fold_handle_completion (completions : list Completion) :
  forall results stats,
    let '(results', stats') :=
      fold_left handle_completion completions (results, stats) in
    total_files stats' = total_files stats
    /\ successful stats' = successful stats + count completed completions
    /\ failed stats' = failed stats + count counted_failed completions
    /\ total_entries stats'
       = total_entries stats + sum_of counted_entries completions.
Proof.
  unfold count.
  induction completions as [| c completions IH]; intros results stats.
  - simpl. lia.
  - cbn [fold_left].
    destruct c as [| r | r]; cbn [handle_completion].
    + specialize (IH results
        {| total_files := total_files stats; successful := successful stats;
           failed := failed stats + 1;
           total_entries := total_entries stats |}).
      destruct (fold_left handle_completion completions _)
        as [results' stats'].
      cbn [List.filter completed counted_failed sum_of counted_entries
           total_files successful failed total_entries length] in *.
      lia.
    + specialize (IH (results ++ [r])
        {| total_files := total_files stats; successful := successful stats;
           failed := failed stats + 1;
           total_entries := total_entries stats |}).
      destruct (fold_left handle_completion completions _)
        as [results' stats'].
      cbn [List.filter completed counted_failed sum_of counted_entries
           total_files successful failed total_entries length] in *.
      lia.
    + destruct r as [file entries meta | file error];
        cbn [is_success].
      * specialize (IH (results ++ [Success file entries meta])
          {| total_files := total_files stats;
             successful := successful stats + 1;
             failed := failed stats;
             total_entries := total_entries stats
                              + reported_entries (Success file entries meta)
          |}).
        destruct (fold_left handle_completion completions _)
          as [results' stats'].
        cbn [List.filter completed counted_failed sum_of counted_entries
             is_success negb total_files successful failed total_entries
             length] in *.
        lia.
      * specialize (IH (results ++ [Failure file error])
          {| total_files := total_files stats;
             successful := successful stats + 1;
             failed := failed stats + 1;
             total_entries := total_entries stats
                              + reported_entries (Failure file error) |}).
        destruct (fold_left handle_completion completions _)
          as [results' stats'].
        cbn [List.filter completed counted_failed sum_of counted_entries
             is_success negb total_files successful failed total_entries
             length] in *.
        lia.
Qed.

Lemma batch_statistics_fields (completions : list Completion) :
  total_files (snd (handle_completions completions))
  = Z.of_nat (length completions)
  /\ successful (snd (handle_completions completions))
     = count completed completions
  /\ failed (snd (handle_completions completions))
     = count counted_failed completions
  /\ total_entries (snd (handle_completions completions))
     = sum_of counted_entries completions.
Proof.
  unfold handle_completions.
  pose proof (fold_handle_completion completions []
                {| total_files := Z.of_nat (length completions);
                   successful := 0; failed := 0; total_entries := 0 |})
    as Hfold.
  destruct (fold_left handle_completion completions _) as [results stats].
  cbn [snd total_files successful failed total_entries] in *.
  destruct Hfold as (Htotal & Hsuccessful & Hfailed & Hentries).
  repeat split; lia.
Qed.

(** X21: after the loop of [process_pdfs], "successful" counts every
    result that was handled to the end, with status "success" or "error";
    "failed" counts the crashed futures, the failed log writes and the
    results with status "error"; so a handled result with status "error"
    is counted in both, and [successful + failed] is the number of files
    plus the number of such results. *)
Theorem batch_statistics (completions : list Completion) :
  let stats := snd (handle_completions completions) in
  total_files stats = Z.of_nat (length completions)
  /\ successful stats = count completed completions
  /\ failed stats = count counted_failed completions
  /\ total_entries stats = sum_of counted_entries completions
  /\ successful stats + failed stats
     = total_files stats
       + count (fun c => completed c && counted_failed c) completions.
Proof.
  unfold handle_completions.
  pose proof (fold_handle_completion completions []
                {| total_files := Z.of_nat (length completions);
                   successful := 0; failed := 0; total_entries := 0 |})
    as Hfold.
  destruct (fold_left handle_completion completions _) as [results stats].
  cbn [snd total_files successful failed total_entries] in *.
  destruct Hfold as (Htotal & Hsuccessful & Hfailed & Hentries).
  repeat split; try lia.
  rewrite Hsuccessful, Hfailed, Htotal. unfold count.
  clear. induction completions as [| c completions IH]; [reflexivity |].
  destruct c as [| r | r]; [| | destruct r];
    cbn [List.filter completed counted_failed is_success negb andb length]
      in *; lia.
Qed.

Definition appended (c : Completion) : option WorkerResult :=
  match c with
  | Crashed => None
  | LogFailed r | Completed r => Some r
  end.

Lemma fold_handle_results (completions : list Completion) :
  forall results stats,
    fst (fold_left handle_completion completions (results, stats))
    = results ++ omap appended completions.
Proof.
  induction completions as [| c completions IH]; intros results stats.
  - simpl. now rewrite app_nil_r.
  - cbn [fold_left]. destruct c as [| r | r]; cbn [handle_completion].
    + rewrite IH. reflexivity.
    + rewrite IH, <- app_assoc. reflexivity.
    + destruct (is_success r); rewrite IH, <- app_assoc; reflexivity.
Qed.

Lemma count_perm {A : Type} (f : A -> bool) (l l' : list A) :
  Permutation l l' -> count f l = count f l'.
Proof.
  unfold count. induction 1 as [| x l l' _ IH | x y l | l l' l'' _ IH1 _ IH2];
    simpl; try reflexivity.
  - destruct (f x); simpl; lia.
  - destruct (f x), (f y); reflexivity.
  - lia.
Qed.

Lemma sum_of_perm {A : Type} (f : A -> Z) (l l' : list A) :
  Permutation l l' -> sum_of f l = sum_of f l'.
Proof.
  induction 1 as [| x l l' _ IH | x y l | l l' l'' _ IH1 _ IH2];
    simpl; lia.
Qed.

(** X22: the statistics of a batch do not depend on the order in which the
    workers finish, and the results returned are the same up to their
    order. *)
Theorem batch_order_irrelevant (completions completions' : list Completion) :
  Permutation completions completions' ->
  snd (handle_completions completions) = snd (handle_completions completions')
  /\ Permutation (fst (handle_completions completions))
       (fst (handle_completions completions')).
Proof.
  intros Hperm. split.
  - pose proof (batch_statistics_fields completions) as H.
    pose proof (batch_statistics_fields completions') as H'.
    destruct (snd (handle_completions completions)) as [t s f n].
    destruct (snd (handle_completions completions')) as [t' s' f' n'].
    cbn [total_files successful failed total_entries] in *.
    destruct H as (-> & -> & -> & ->). destruct H' as (-> & -> & -> & ->).
    rewrite (Permutation_length Hperm).
    rewrite (count_perm completed _ _ Hperm).
    rewrite (count_perm counted_failed _ _ Hperm).
    now rewrite (sum_of_perm counted_entries _ _ Hperm).
  - unfold handle_completions. rewrite !fold_handle_results. simpl.
    now rewrite Hperm.
Qed.

(** Three files: one with two entries, one that failed validation, one
    whose worker crashed. *)
Definition sample_completions : list Completion :=
  [ Completed (Success "a.pdf"
                 [ {| c_text := "1. Scope"; c_page := 1; c_level := Some H1 |};
                   {| c_text := "2. Terms"; c_page := 2; c_level := Some H1 |} ]
                 (Some {| page_count := 2 |}));
    Completed (Failure "b.pdf" "Schema validation failed: title");
    Crashed ].

Lemma sample_statistics :
  snd (handle_completions sample_completions)
  = {| total_files := 3; successful := 2; failed := 2; total_entries := 2 |}.
Proof. reflexivity. Qed.

Lemma batch_order_irrelevant_witness :
  snd (handle_completions (rev sample_completions))
  = {| total_files := 3; successful := 2; failed := 2; total_entries := 2 |}.
Proof.
  destruct (batch_order_irrelevant (rev sample_completions)
              sample_completions) as [H _].
  - symmetry. apply Permutation_rev.
  - rewrite H. reflexivity.
Defined.

(** ** Entries with equal sort keys *)

(** [x] stands before [y] in [l]. *)
Definition before {A : Type} (x y : A) (l : list A) : Prop :=
  exists l1 l2 l3, l = l1 ++ x :: l2 ++ y :: l3.

Lemma before_cons {A : Type} (x y z : A) (l : list A) :
  before x y l -> before x y (z :: l).
Proof.
  intros (l1 & l2 & l3 & ->). now exists (z :: l1), l2, l3.
Qed.

Lemma before_head {A : Type} (x y : A) (l : list A) :
  y ∈ l -> before x y (x :: l).
Proof.
  intros Hy. apply list_elem_of_split in Hy as (l2 & l3 & ->).
  now exists [], l2, l3.
Qed.

Lemma before_inv {A : Type} (x y z : A) (l : list A) :
  before x y (z :: l) -> (x = z /\ y ∈ l) \/ before x y l.
Proof.
  intros (l1 & l2 & l3 & Heq). destruct l1 as [| z' l1]; simpl in Heq.
  - injection Heq as <- ->. left. split; [reflexivity |].
    apply elem_of_app. right. apply list_elem_of_here.
  - injection Heq as <- ->. right. now exists l1, l2, l3.
Qed.

Section Stable.
Context {A K : Type} (ltb : K -> K -> bool) (key : A -> K).

Lemma insert_by_before (x b : A) (l : list A) :
  b ∈ l -> ltb (key b) (key x) = false ->
  before x b (insert_by ltb key x l).
Proof.
  induction l as [| y l IH]; intros Hb Hkey.
  - now apply elem_of_nil in Hb.
  - simpl. destruct (ltb (key y) (key x)) eqn:Hy.
    + apply before_cons. apply IH; [| exact Hkey].
      apply elem_of_cons in Hb as [-> | Hb]; [congruence | exact Hb].
    + now apply before_head.
Qed.

Lemma insert_by_keeps_before (x a b : A) (l : list A) :
  before a b l -> before a b (insert_by ltb key x l).
Proof.
  induction l as [| y l IH]; intros Hab.
  - destruct Hab as (l1 & l2 & l3 & Heq). now destruct l1.
  - simpl. destruct (ltb (key y) (key x)).
    + apply before_inv in Hab as [[-> Hb] | Hab].
      * apply before_head. rewrite (insert_by_perm ltb key x l).
        now apply list_elem_of_further.
      * apply before_cons. now apply IH.
    + now apply before_cons.
Qed.

(** The sort is stable: an element stays before every later element whose
    key is not strictly smaller. *)
Lemma sort_by_stable (a b : A) (l : list A) :
  before a b l -> ltb (key b) (key a) = false ->
  before a b (sort_by ltb key l).
Proof.
  induction l as [| x l IH]; intros Hab Hkey.
  - destruct Hab as (l1 & l2 & l3 & Heq). now destruct l1.
  - simpl. apply before_inv in Hab as [[-> Hb] | Hab].
    + apply insert_by_before; [| exact Hkey].
      now rewrite (sort_by_perm ltb key l).
    + apply insert_by_keeps_before. now apply IH.
Qed.

End Stable.

(** [b] comes strictly before [a] in the order of the outline. *)
Definition strictly_before (text_blocks : list TextBlock) (b a : Heading)
    : Prop :=
  h_page b < h_page a
  \/ (h_page b = h_page a
      /\ (recorded_position text_blocks b
          < recorded_position text_blocks a)%Q).

(** X23: the sort of the outline is stable.  The outline is a
    rearrangement of the headings in the order in which the loop accepted
    them, and a heading accepted before another one stays before it unless
    the other one has a lower page, or the same page and a lower recorded
    position; entries with the same page and position keep their order. *)
Theorem outline_ties_keep_order (doc : Doc) (res : OutlineResult)
    (text_blocks : list TextBlock) (font_analysis : FontAnalysis)
    (headings : list Heading) :
  extract_outline doc = Ok res ->
  extract_text_blocks doc = Ok text_blocks ->
  analyze_fonts text_blocks = Ok font_analysis ->
  collect_headings text_blocks font_analysis text_blocks [] ∅ = Ok headings ->
  Permutation (outline res) headings
  /\ forall a b,
       before a b headings -> ~ strictly_before text_blocks b a ->
       before a b (outline res).
Proof.
  intros Hrun Hblocks Hfonts Hcollect.
  assert (Hout : outline res
                 = sort_by ZQ_ltb (sort_key (record_positions text_blocks ∅))
                     headings).
  { unfold extract_outline, mbind, result_bind in Hrun.
    rewrite Hblocks in Hrun. destruct text_blocks as [| b rest].
    - injection Hrun as <-. simpl in Hcollect. now injection Hcollect as <-.
    - rewrite Hfonts, Hcollect in Hrun. now injection Hrun as <-. }
  rewrite Hout. split; [apply sort_by_perm |].
  intros a b Hab Hnot. apply sort_by_stable; [exact Hab |].
  destruct (ZQ_ltb _ _) eqn:Hlt; [| reflexivity].
  exfalso. apply Hnot. revert Hlt. rewrite !sort_key_recorded.
  unfold ZQ_ltb, strictly_before. simpl.
  destruct (h_page b =? h_page a) eqn:Hpage; simpl.
  - apply Z.eqb_eq in Hpage. rewrite Qltb_true. intros H. right. now split.
  - rewrite Z.ltb_lt. intros H. now left.
Qed.

Lemma outline_ties_keep_order_witness :
  Permutation (outline sample_outline)
    (match collect_headings sample_blocks helvetica_10 sample_blocks [] ∅ with
     | Ok headings => headings
     | Raise _ => []
     end).
Proof.
  eapply (outline_ties_keep_order sample_doc sample_outline sample_blocks
            helvetica_10).
  - vm_compute. reflexivity.
  - vm_compute. reflexivity.
  - vm_compute. reflexivity.
  - vm_compute. reflexivity.
Defined.

(** ** The exceptions of an extraction *)

Lemma calculate_heading_likelihood_raises (all_text_blocks : list TextBlock)
    (b : TextBlock) (font_analysis : FontAnalysis) (e : exn) :
  calculate_heading_likelihood all_text_blocks b font_analysis = Raise e ->
  e = ZeroDivisionError
  /\ Qeq_bool (body_font_size font_analysis) 0 = true
  /\ is_excluded_content (text b) (page b) = false.
Proof.
  unfold calculate_heading_likelihood.
  destruct (is_excluded_content (text b) (page b)); [discriminate |].
  destruct (Qeq_bool (body_font_size font_analysis) 0).
  - intros H. injection H as <-. now repeat split.
  - destruct (score_bold (is_bold b) _). discriminate.
Qed.

Lemma collect_headings_raises (all_text_blocks : list TextBlock)
    (font_analysis : FontAnalysis) (blocks : list TextBlock) (e : exn) :
  forall headings seen_texts,
    collect_headings all_text_blocks font_analysis blocks headings seen_texts
    = Raise e ->
    e = ZeroDivisionError
    /\ Qeq_bool (body_font_size font_analysis) 0 = true
    /\ exists b, b ∈ blocks
                 /\ is_excluded_content (text b) (page b) = false.
Proof.
  induction blocks as [| b rest IH]; intros headings seen_texts Hrun;
    simpl in Hrun; [discriminate |].
  assert (Hrest : forall hs seen,
            collect_headings all_text_blocks font_analysis rest hs seen
            = Raise e ->
            e = ZeroDivisionError
            /\ Qeq_bool (body_font_size font_analysis) 0 = true
            /\ exists b', b' ∈ b :: rest
                 /\ is_excluded_content (text b') (page b') = false).
  { intros hs seen H. destruct (IH hs seen H) as (He & Hbody & b' & Hb' & Hex).
    split; [exact He |]. split; [exact Hbody |].
    exists b'. split; [now apply list_elem_of_further | exact Hex]. }
  destruct ((len (strip (text b)) =? 0)
            || bool_decide (block_key b ∈ seen_texts));
    [exact (Hrest _ _ Hrun) |].
  destruct (calculate_heading_likelihood all_text_blocks b font_analysis)
    as [[[is_heading level] confidence] | e'] eqn:Hscore.
  - simpl in Hrun. destruct is_heading; exact (Hrest _ _ Hrun).
  - simpl in Hrun. injection Hrun as ->.
    destruct (calculate_heading_likelihood_raises _ _ _ _ Hscore)
      as (He & Hbody & Hex).
    split; [exact He |]. split; [exact Hbody |].
    exists b. split; [apply list_elem_of_here | exact Hex].
Qed.

(** X24: [extract_outline] raises only what [extract_text_blocks] raises
    (a missing key, a bounding box that is too short), or
    [ZeroDivisionError]; the latter happens only when the body font size is
    0 and some block is not excluded. *)
Theorem extract_outline_exceptions (doc : Doc) (e : exn) :
  extract_outline doc = Raise e ->
  extract_text_blocks doc = Raise e
  \/ (e = ZeroDivisionError
      /\ exists text_blocks font_analysis b,
           extract_text_blocks doc = Ok text_blocks
           /\ analyze_fonts text_blocks = Ok font_analysis
           /\ (body_font_size font_analysis == 0)%Q
           /\ b ∈ text_blocks
           /\ is_excluded_content (text b) (page b) = false).
Proof.
  unfold extract_outline, mbind, result_bind. intros Hrun.
  destruct (extract_text_blocks doc) as [text_blocks | e'];
    [| left; now injection Hrun as ->].
  right. destruct text_blocks as [| b0 rest]; [discriminate |].
  destruct (analyze_fonts (b0 :: rest)) as [font_analysis | e'] eqn:Hfonts.
  - destruct (collect_headings (b0 :: rest) font_analysis (b0 :: rest) [] ∅)
      as [headings | e'] eqn:Hcollect; [discriminate |].
    injection Hrun as ->.
    destruct (collect_headings_raises _ _ _ _ _ _ Hcollect)
      as (He & Hbody & b & Hb & Hex).
    split; [exact He |].
    exists (b0 :: rest), font_analysis, b.
    apply Qeq_bool_iff in Hbody. now repeat split.
  - destruct (analyze_fonts_returns (b0 :: rest)) as [fa Hfa];
      [discriminate | congruence].
Qed.

Lemma extract_outline_exceptions_witness :
  extract_text_blocks zero_size_doc = Raise ZeroDivisionError
  \/ (ZeroDivisionError = ZeroDivisionError
      /\ exists text_blocks font_analysis b,
           extract_text_blocks zero_size_doc = Ok text_blocks
           /\ analyze_fonts text_blocks = Ok font_analysis
           /\ (body_font_size font_analysis == 0)%Q
           /\ b ∈ text_blocks
           /\ is_excluded_content (text b) (page b) = false).
Proof.
  apply (extract_outline_exceptions zero_size_doc ZeroDivisionError).
  vm_compute. reflexivity.
Defined.
